(** * lab_5: interactive harmonic with noise and low-pass filtering

    A shallow embedding of [src/lab_5/lab_5.py] (class [HarmonicVisualizer])
    and the properties of its recomputation policy.

    Conventions of the embedding.
    - Python floats are idealised as real numbers ([R]); [!=] on floats is
      decidable inequality on [R].  Equalities between arrays are stated
      where the code computes the same thing from the same values, not
      where only the exact real functions agree.  The variance is taken
      from its slider's range, where [sqrt] is the square root of numpy.
    - numpy arrays are lists of reals, operated on element by element.
    - [np.random.normal] reads the ambient generator: the generator is a
      tape [gauss] of standard normal draws and a position on it, and a call
      for [n] samples consumes the next [n] draws.
    - [scipy.signal.butter] and [filtfilt] are external; the coefficient
      design and the forward-backward filter are parameters, the argument
      check of [butter] (it raises [ValueError] unless [0 < Wn < 1] for a
      digital filter) is written out.  [filtfilt] is total here: the
      signals it receives have 1000 samples (lemmas [update_shaped] and
      [init_shaped]), well above its padding length.
    - The widgets are records of the attributes the class reads and
      writes: a slider's [val] and [valinit], a line's data and visibility.
      [Slider.set_val] stores any value; clipping to the slider's range is
      done by the widget's mouse handler, outside the class.
    - An exception leaves the object as mutated so far: a raising call
      returns the state it had reached. *)

From Stdlib Require Import Reals Lra Lia List Bool Arith.
Import ListNotations.

Local Open Scope R_scope.

(** ** Float comparison *)

(** Python's [x != y]. *)
Definition Rneb (x y : R) : bool :=
  if Req_dec_T x y then false else true.

(** ** numpy *)

Module np.

Definition array := list R.

(** [np.linspace(start, stop, num)]: [num] samples [start + i * step] with
    [step = (stop - start) / (num - 1)].  (numpy then stores [stop] in the
    last cell, which over the reals is the value already there.) *)
Definition linspace (start stop : R) (num : nat) : array :=
  let step := (stop - start) / INR (num - 1) in
  map (fun i => INR i * step + start) (seq 0 num).

(** [c * x] for a scalar [c]. *)
Definition scalar_mul (c : R) (x : array) : array := map (fun v => c * v) x.

(** [x + c] for a scalar [c]. *)
Definition add_scalar (x : array) (c : R) : array := map (fun v => v + c) x.

(** [np.sin(x)]. *)
Definition sin (x : array) : array := map Rtrigo_def.sin x.

(** [x + y] for two arrays of the same shape. *)
Definition add (x y : array) : array :=
  map (fun p => fst p + snd p) (combine x y).

(** [np.random.normal(loc, scale, size)] from position [pos] of the tape
    [gauss]: the samples and the new position. *)
Definition normal (gauss : nat -> R) (pos : nat) (loc scale : R) (size : nat)
  : array * nat :=
  (map (fun k => loc + scale * gauss k) (seq pos size), (pos + size)%nat).

End np.

(** ** Exceptions *)

Inductive exn : Type :=
| ValueError.

(** ** scipy.signal *)

Module signal.

(** Numerator and denominator polynomials of a filter. *)
Definition ba : Type := (np.array * np.array)%type.

(** [butter(N, Wn, btype='low', analog=False)]: the design [design N Wn]
    when [0 < Wn < 1], [ValueError] otherwise. *)
Definition butter (design : nat -> R -> ba) (N : nat) (Wn : R) : exn + ba :=
  if Rle_dec Wn 0 then inl ValueError
  else if Rle_dec 1 Wn then inl ValueError
  else inr (design N Wn).

End signal.

(** ** matplotlib *)

Record Slider : Type := mkSlider {
  val : R;
  valinit : R;
  valmin : R;
  valmax : R
}.

(** [Slider.set_val]: stores the value (the observers run afterwards). *)
Definition set_val (v : R) (sl : Slider) : Slider :=
  mkSlider v (valinit sl) (valmin sl) (valmax sl).

Record Line2D : Type := mkLine {
  ydata : np.array;
  visible : bool
}.

Definition set_ydata (y : np.array) (l : Line2D) : Line2D :=
  mkLine y (visible l).

Definition set_visible (b : bool) (l : Line2D) : Line2D :=
  mkLine (ydata l) b.

(** ** The parameter dictionary *)

Record Params : Type := mkParams {
  amplitude : R;
  frequency : R;
  phase : R;
  noise_mean : R;
  noise_covariance : R;
  cutoff_frequency : R;
  show_noise : bool
}.

(** The dictionary built at the head of [_update]: six keys, no
    [show_noise]. *)
Record NewParams : Type := mkNewParams {
  new_amplitude : R;
  new_frequency : R;
  new_phase : R;
  new_noise_mean : R;
  new_noise_covariance : R;
  new_cutoff_frequency : R
}.

(** [params.update(new_params)]: the six keys are overwritten, [show_noise]
    stays. *)
Definition params_update (p : Params) (n : NewParams) : Params :=
  mkParams (new_amplitude n) (new_frequency n) (new_phase n)
           (new_noise_mean n) (new_noise_covariance n)
           (new_cutoff_frequency n) (show_noise p).

Definition initial_params : Params :=
  mkParams 1 (3 / 10) 0 0 (15 / 100) 2 true.

(** [self.t = np.linspace(0, 10, 1000)], assigned once in [__init__]. *)
Definition t : np.array := np.linspace 0 10 1000.

(** ** The visualizer object *)

Record State : Type := mkState {
  params : Params;
  harmonic : np.array;
  noise : np.array;
  slider_amp : Slider;
  slider_freq : Slider;
  slider_phase : Slider;
  slider_noise_mean : Slider;
  slider_noise_cov : Slider;
  slider_cutoff : Slider;
  line_noisy : Line2D;
  line_clean : Line2D;
  line_filtered : Line2D;
  (** position of the ambient generator on its tape *)
  rng_pos : nat;
  (** number of [fig.canvas.draw_idle()] requests so far *)
  draw_requests : nat
}.

Definition with_params (p : Params) (s : State) : State :=
  mkState p (harmonic s) (noise s) (slider_amp s) (slider_freq s)
    (slider_phase s) (slider_noise_mean s) (slider_noise_cov s)
    (slider_cutoff s) (line_noisy s) (line_clean s) (line_filtered s)
    (rng_pos s) (draw_requests s).

Definition with_harmonic (h : np.array) (s : State) : State :=
  mkState (params s) h (noise s) (slider_amp s) (slider_freq s)
    (slider_phase s) (slider_noise_mean s) (slider_noise_cov s)
    (slider_cutoff s) (line_noisy s) (line_clean s) (line_filtered s)
    (rng_pos s) (draw_requests s).

(** Assignment of [self.noise] from a call of the generator, which moves
    its position. *)
Definition with_noise (r : np.array * nat) (s : State) : State :=
  mkState (params s) (harmonic s) (fst r) (slider_amp s) (slider_freq s)
    (slider_phase s) (slider_noise_mean s) (slider_noise_cov s)
    (slider_cutoff s) (line_noisy s) (line_clean s) (line_filtered s)
    (snd r) (draw_requests s).

Definition with_line_noisy (l : Line2D) (s : State) : State :=
  mkState (params s) (harmonic s) (noise s) (slider_amp s) (slider_freq s)
    (slider_phase s) (slider_noise_mean s) (slider_noise_cov s)
    (slider_cutoff s) l (line_clean s) (line_filtered s)
    (rng_pos s) (draw_requests s).

Definition with_line_clean (l : Line2D) (s : State) : State :=
  mkState (params s) (harmonic s) (noise s) (slider_amp s) (slider_freq s)
    (slider_phase s) (slider_noise_mean s) (slider_noise_cov s)
    (slider_cutoff s) (line_noisy s) l (line_filtered s)
    (rng_pos s) (draw_requests s).

Definition with_line_filtered (l : Line2D) (s : State) : State :=
  mkState (params s) (harmonic s) (noise s) (slider_amp s) (slider_freq s)
    (slider_phase s) (slider_noise_mean s) (slider_noise_cov s)
    (slider_cutoff s) (line_noisy s) (line_clean s) l
    (rng_pos s) (draw_requests s).

(** [self.fig.canvas.draw_idle()]. *)
Definition draw_idle (s : State) : State :=
  mkState (params s) (harmonic s) (noise s) (slider_amp s) (slider_freq s)
    (slider_phase s) (slider_noise_mean s) (slider_noise_cov s)
    (slider_cutoff s) (line_noisy s) (line_clean s) (line_filtered s)
    (rng_pos s) (S (draw_requests s)).

(** The six sliders, and access to each. *)
Inductive slider_id : Type :=
| Amp | Freq | Phase | NoiseMean | NoiseCov | Cutoff.

Definition slider (i : slider_id) (s : State) : Slider :=
  match i with
  | Amp => slider_amp s
  | Freq => slider_freq s
  | Phase => slider_phase s
  | NoiseMean => slider_noise_mean s
  | NoiseCov => slider_noise_cov s
  | Cutoff => slider_cutoff s
  end.

Definition with_slider (i : slider_id) (sl : Slider) (s : State) : State :=
  mkState (params s) (harmonic s) (noise s)
    (match i with Amp => sl | _ => slider_amp s end)
    (match i with Freq => sl | _ => slider_freq s end)
    (match i with Phase => sl | _ => slider_phase s end)
    (match i with NoiseMean => sl | _ => slider_noise_mean s end)
    (match i with NoiseCov => sl | _ => slider_noise_cov s end)
    (match i with Cutoff => sl | _ => slider_cutoff s end)
    (line_noisy s) (line_clean s) (line_filtered s)
    (rng_pos s) (draw_requests s).

(** The result of a method: it returns, or it raises from the state it had
    reached. *)
Inductive outcome : Type :=
| Done (s : State)
| Raised (e : exn) (s : State).

Definition bind (o : outcome) (k : State -> outcome) : outcome :=
  match o with
  | Done s => k s
  | Raised e s => Raised e s
  end.

Notation "x <- o ;; k" := (bind o (fun x => k))
  (at level 61, o at next level, right associativity).

(** The state an outcome ends in, raised or not. *)
Definition final (o : outcome) : State :=
  match o with
  | Done s => s
  | Raised _ s => s
  end.

Definition returns (o : outcome) : bool :=
  match o with
  | Done _ => true
  | Raised _ _ => false
  end.

(** A concrete world to run the object in: a tape, a design and a filter. *)
Definition sample_gauss (k : nat) : R := INR k / 1000.

Definition sample_design (N : nat) (Wn : R) : signal.ba := ([Wn], [1; INR N]).

Definition sample_filtfilt (b a x : np.array) : np.array :=
  np.scalar_mul (hd 0 b) x.

Section HarmonicVisualizer.

(** The tape of standard normal draws behind [np.random]. *)
Variable gauss : nat -> R.
(** Coefficient design of [scipy.signal.butter] on its domain. *)
Variable butter_design : nat -> R -> signal.ba.
(** [scipy.signal.filtfilt(b, a, x)]. *)
Variable filtfilt : np.array -> np.array -> np.array -> np.array.

Definition _calculate_harmonic (self : State) : np.array :=
  np.scalar_mul (amplitude (params self))
    (np.sin
       (np.add_scalar
          (np.scalar_mul (2 * PI * frequency (params self)) t)
          (phase (params self)))).

Definition _generate_noise (self : State) : np.array * nat :=
  np.normal gauss (rng_pos self)
    (noise_mean (params self))
    (sqrt (noise_covariance (params self)))
    (length t).

(** [fs = 1 / (t[1] - t[0])], [nyq = 0.5 * fs]. *)
Definition fs : R := 1 / (nth 1 t 0 - nth 0 t 0).
Definition nyq : R := (5 / 10) * fs.

Definition normal_cutoff (self : State) : R :=
  cutoff_frequency (params self) / nyq.

Definition _update_filter (noisy_signal : np.array) (self : State) : outcome :=
  match signal.butter butter_design 5 (normal_cutoff self) with
  | inl e => Raised e self
  | inr (b, a) =>
      let filtered_signal := filtfilt b a noisy_signal in
      Done (with_line_filtered (set_ydata filtered_signal (line_filtered self)) self)
  end.

(** The dictionary read from the sliders at the head of [_update]. *)
Definition read_sliders (self : State) : NewParams :=
  mkNewParams (val (slider_amp self)) (val (slider_freq self))
    (val (slider_phase self)) (val (slider_noise_mean self))
    (val (slider_noise_cov self)) (val (slider_cutoff self)).

(** The two staleness tests of [_update], each against [self.params] as it
    is when the test runs. *)
Definition harmonic_changed (n : NewParams) (self : State) : bool :=
  Rneb (new_amplitude n) (amplitude (params self))
  || Rneb (new_frequency n) (frequency (params self))
  || Rneb (new_phase n) (phase (params self)).

Definition noise_changed (n : NewParams) (self : State) : bool :=
  Rneb (new_noise_mean n) (noise_mean (params self))
  || Rneb (new_noise_covariance n) (noise_covariance (params self)).

(** First [if] of [_update]. *)
Definition refresh_harmonic (n : NewParams) (self : State) : State :=
  if harmonic_changed n self then
    let self1 := with_params (params_update (params self) n) self in
    with_harmonic (_calculate_harmonic self1) self1
  else self.

(** Second [if] of [_update]. *)
Definition refresh_noise (n : NewParams) (self : State) : State :=
  if noise_changed n self then
    let self1 := with_params (params_update (params self) n) self in
    with_noise (_generate_noise self1) self1
  else self.

(** [_update] up to the call of [_update_filter]: the two tests, the final
    [params.update], and the data of the noisy and clean lines. *)
Definition refresh (self : State) : State :=
  let new_params := read_sliders self in
  let self1 := refresh_harmonic new_params self in
  let self2 := refresh_noise new_params self1 in
  let self3 := with_params (params_update (params self2) new_params) self2 in
  let noisy_signal := np.add (harmonic self3) (noise self3) in
  let self4 := with_line_noisy (set_ydata noisy_signal (line_noisy self3)) self3 in
  with_line_clean (set_ydata (harmonic self4) (line_clean self4)) self4.

Definition noisy_signal (self : State) : np.array :=
  np.add (harmonic self) (noise self).

Arguments refresh : simpl never.
Arguments _calculate_harmonic : simpl never.
Arguments _generate_noise : simpl never.

Definition _update (self : State) : outcome :=
  let self5 := refresh self in
  self6 <- _update_filter (noisy_signal self5) self5 ;;
  Done (draw_idle self6).

(** [Slider.reset()] with [_update] as its observer: nothing happens when
    the slider already holds [valinit]. *)
Definition slider_reset (i : slider_id) (self : State) : outcome :=
  if Rneb (val (slider i self)) (valinit (slider i self)) then
    _update (with_slider i (set_val (valinit (slider i self)) (slider i self)) self)
  else Done self.

(** [_reset]: the six sliders are reset in turn.  An exception raised by an
    observer is taken to propagate out of [reset()]; the results on
    [_reset] below concern objects on which no call raises. *)
Definition _reset (self : State) : outcome :=
  s1 <- slider_reset Amp self ;;
  s2 <- slider_reset Freq s1 ;;
  s3 <- slider_reset Phase s2 ;;
  s4 <- slider_reset NoiseMean s3 ;;
  s5 <- slider_reset NoiseCov s4 ;;
  slider_reset Cutoff s5.

Definition _toggle_noise (self : State) : State :=
  let p := params self in
  let p' := mkParams (amplitude p) (frequency p) (phase p) (noise_mean p)
              (noise_covariance p) (cutoff_frequency p) (negb (show_noise p)) in
  let self1 := with_params p' self in
  let self2 := with_line_noisy
                 (set_visible (show_noise (params self1)) (line_noisy self1)) self1 in
  let self3 := with_line_clean
                 (set_visible (negb (show_noise (params self2))) (line_clean self2)) self2 in
  draw_idle self3.

(** A slider event: the widget stores the value and runs [_update]. *)
Definition on_changed (i : slider_id) (v : R) (self : State) : outcome :=
  _update (with_slider i (set_val v (slider i self)) self).


(** [_setup_plot]: the three lines as first drawn. *)
Definition _setup_plot (self : State) : State :=
  let self1 := with_line_noisy (mkLine (np.add (harmonic self) (noise self)) true) self in
  let self2 := with_line_clean (mkLine (harmonic self1) false) self1 in
  with_line_filtered (mkLine (harmonic self2) true) self2.

(** [_setup_widgets]: each slider starts at, and will reset to, the value of
    its key in [self.params]. *)
Definition _setup_widgets (self : State) : State :=
  let p := params self in
  let self1 := with_slider Amp (mkSlider (amplitude p) (amplitude p) (1 / 10) 2) self in
  let self2 := with_slider Freq (mkSlider (frequency p) (frequency p) (1 / 10) 2) self1 in
  let self3 := with_slider Phase (mkSlider (phase p) (phase p) 0 (2 * PI)) self2 in
  let self4 := with_slider NoiseMean
                 (mkSlider (noise_mean p) (noise_mean p) (- (5 / 10)) (5 / 10)) self3 in
  let self5 := with_slider NoiseCov
                 (mkSlider (noise_covariance p) (noise_covariance p) 0 (5 / 10)) self4 in
  with_slider Cutoff
    (mkSlider (cutoff_frequency p) (cutoff_frequency p) (1 / 10) 10) self5.

(** The object before any attribute but [params] is assigned; [pos] is
    where the ambient generator stands when the constructor is entered. *)
Definition blank (pos : nat) : State :=
  let sl := mkSlider 0 0 0 0 in
  let ln := mkLine [] true in
  mkState initial_params [] [] sl sl sl sl sl sl ln ln ln pos 0.

Definition __init__ (pos : nat) : outcome :=
  let self0 := blank pos in
  let self1 := with_harmonic (_calculate_harmonic self0) self0 in
  let self2 := with_noise (_generate_noise self1) self1 in
  let self3 := _setup_plot self2 in
  let self4 := _setup_widgets self3 in
  _update self4.

(** ** Basic facts *)

Lemma Rneb_refl (x : R) : Rneb x x = false.
Proof. unfold Rneb. destruct (Req_dec_T x x); [reflexivity | contradiction]. Qed.

Lemma Rneb_true_iff (x y : R) : Rneb x y = true <-> x <> y.
Proof.
  unfold Rneb. destruct (Req_dec_T x y) as [e | n]; split; intro H;
    try discriminate; try reflexivity; [contradiction | exact n].
Qed.

Lemma Rneb_false_iff (x y : R) : Rneb x y = false <-> x = y.
Proof.
  unfold Rneb. destruct (Req_dec_T x y) as [e | n]; split; intro H;
    try discriminate; try reflexivity; [exact e | contradiction].
Qed.

Lemma Rneb_neq (x y : R) : x <> y -> Rneb x y = true.
Proof. apply Rneb_true_iff. Qed.


Lemma nth_map_in {A B : Type} (f : A -> B) (l : list A) (i : nat) (d : A) (d' : B) :
  (i < length l)%nat -> nth i (map f l) d' = f (nth i l d).
Proof.
  intro H. rewrite (nth_indep (map f l) d' (f d)).
  - apply map_nth.
  - rewrite length_map. exact H.
Qed.

Lemma length_linspace (a b : R) (num : nat) : length (np.linspace a b num) = num.
Proof. unfold np.linspace. rewrite length_map. apply length_seq. Qed.

Lemma nth_linspace (a b : R) (num i : nat) :
  (i < num)%nat ->
  nth i (np.linspace a b num) 0 = INR i * ((b - a) / INR (num - 1)) + a.
Proof.
  intro H. unfold np.linspace.
  rewrite (nth_map_in _ _ i 0%nat) by (rewrite length_seq; exact H).
  rewrite seq_nth by exact H. reflexivity.
Qed.

Lemma length_t : length t = 1000%nat.
Proof. apply length_linspace. Qed.

Lemma nth_t (i : nat) : (i < 1000)%nat -> nth i t 0 = INR i * (10 / 999).
Proof.
  intro H. unfold t. rewrite nth_linspace by exact H.
  replace (INR (1000 - 1)) with 999.
  - lra.
  - rewrite INR_IZR_INZ. reflexivity.
Qed.

(** The sample rate is 99.9 and the Nyquist frequency 49.95. *)
Lemma fs_value : fs = 999 / 10.
Proof.
  unfold fs. rewrite !nth_t by lia. simpl INR. field.
Qed.

Lemma nyq_value : nyq = 999 / 20.
Proof. unfold nyq. rewrite fs_value. field. Qed.

(** ** Harmonic synthesis *)

Lemma length_calculate_harmonic (self : State) :
  length (_calculate_harmonic self) = length t.
Proof.
  unfold _calculate_harmonic, np.scalar_mul, np.sin, np.add_scalar.
  rewrite !length_map. reflexivity.
Qed.

Lemma nth_calculate_harmonic (self : State) (i : nat) :
  (i < length t)%nat ->
  nth i (_calculate_harmonic self) 0 =
  amplitude (params self)
  * sin (2 * PI * frequency (params self) * nth i t 0 + phase (params self)).
Proof.
  intro H. unfold _calculate_harmonic, np.scalar_mul, np.sin, np.add_scalar.
  rewrite (nth_map_in _ _ i 0) by (rewrite !length_map; exact H).
  rewrite (nth_map_in _ _ i 0) by (rewrite !length_map; exact H).
  rewrite (nth_map_in _ _ i 0) by (rewrite !length_map; exact H).
  rewrite (nth_map_in _ _ i 0) by exact H.
  reflexivity.
Qed.

(** The harmonic reads three keys of [self.params] and nothing else of the
    object. *)
Lemma calculate_harmonic_ext (self self' : State) :
  amplitude (params self) = amplitude (params self') ->
  frequency (params self) = frequency (params self') ->
  phase (params self) = phase (params self') ->
  _calculate_harmonic self = _calculate_harmonic self'.
Proof.
  intros Ha Hf Hp. unfold _calculate_harmonic. rewrite Ha, Hf, Hp. reflexivity.
Qed.

(** ** What [_update] does before the filter *)

Lemma harmonic_changed_false (n : NewParams) (self : State) :
  harmonic_changed n self = false <->
  new_amplitude n = amplitude (params self)
  /\ new_frequency n = frequency (params self)
  /\ new_phase n = phase (params self).
Proof.
  unfold harmonic_changed. rewrite !orb_false_iff, !Rneb_false_iff. tauto.
Qed.

Lemma noise_changed_false (n : NewParams) (self : State) :
  noise_changed n self = false <->
  new_noise_mean n = noise_mean (params self)
  /\ new_noise_covariance n = noise_covariance (params self).
Proof.
  unfold noise_changed. rewrite !orb_false_iff, !Rneb_false_iff. tauto.
Qed.

Lemma noise_changed_true (n : NewParams) (self : State) :
  noise_changed n self = true <->
  new_noise_mean n <> noise_mean (params self)
  \/ new_noise_covariance n <> noise_covariance (params self).
Proof.
  unfold noise_changed. rewrite !orb_true_iff, !Rneb_true_iff. tauto.
Qed.

(** Once [params.update(new_params)] has run, the noise test compares the
    new values with themselves. *)
Lemma noise_changed_after_update (n : NewParams) (self : State) (p : Params) :
  params self = params_update p n -> noise_changed n self = false.
Proof.
  intro H. unfold noise_changed. rewrite H. simpl. rewrite !Rneb_refl. reflexivity.
Qed.

Lemma params_update_idem (p : Params) (n : NewParams) :
  params_update (params_update p n) n = params_update p n.
Proof. reflexivity. Qed.

Lemma params_refresh (self : State) :
  params (refresh self) = params_update (params self) (read_sliders self).
Proof.
  unfold refresh, refresh_noise, refresh_harmonic.
  destruct (harmonic_changed (read_sliders self) self).
  - rewrite (noise_changed_after_update _ _ (params self)) by reflexivity. reflexivity.
  - destruct (noise_changed (read_sliders self) self); reflexivity.
Qed.

Lemma harmonic_refresh (self : State) :
  harmonic (refresh self) =
  if harmonic_changed (read_sliders self) self
  then _calculate_harmonic (with_params (params_update (params self) (read_sliders self)) self)
  else harmonic self.
Proof.
  unfold refresh, refresh_noise, refresh_harmonic.
  destruct (harmonic_changed (read_sliders self) self).
  - rewrite (noise_changed_after_update _ _ (params self)) by reflexivity. reflexivity.
  - destruct (noise_changed (read_sliders self) self); reflexivity.
Qed.

(** The noise is drawn again exactly when the first test failed and the
    second succeeded. *)
Lemma noise_refresh (self : State) :
  (noise (refresh self), rng_pos (refresh self)) =
  if harmonic_changed (read_sliders self) self then (noise self, rng_pos self)
  else if noise_changed (read_sliders self) self
       then _generate_noise (with_params (params_update (params self) (read_sliders self)) self)
       else (noise self, rng_pos self).
Proof.
  unfold refresh, refresh_noise, refresh_harmonic.
  destruct (harmonic_changed (read_sliders self) self).
  - rewrite (noise_changed_after_update _ _ (params self)) by reflexivity. reflexivity.
  - destruct (noise_changed (read_sliders self) self); simpl; [|reflexivity].
    symmetry. apply surjective_pairing.
Qed.

Lemma sliders_refresh (self : State) (i : slider_id) :
  slider i (refresh self) = slider i self.
Proof.
  unfold refresh, refresh_noise, refresh_harmonic.
  destruct (harmonic_changed (read_sliders self) self).
  - rewrite (noise_changed_after_update _ _ (params self)) by reflexivity. destruct i; reflexivity.
  - destruct (noise_changed (read_sliders self) self); destruct i; reflexivity.
Qed.

Lemma lines_refresh (self : State) :
  ydata (line_noisy (refresh self)) = noisy_signal (refresh self)
  /\ ydata (line_clean (refresh self)) = harmonic (refresh self)
  /\ line_filtered (refresh self) = line_filtered self
  /\ visible (line_noisy (refresh self)) = visible (line_noisy self)
  /\ visible (line_clean (refresh self)) = visible (line_clean self)
  /\ draw_requests (refresh self) = draw_requests self.
Proof.
  unfold refresh, refresh_noise, refresh_harmonic, noisy_signal.
  destruct (harmonic_changed (read_sliders self) self).
  - rewrite (noise_changed_after_update _ _ (params self)) by reflexivity. simpl. repeat split; reflexivity.
  - destruct (noise_changed (read_sliders self) self); simpl;
      repeat split; reflexivity.
Qed.

(** ** The filter step *)

Lemma butter_valid (N : nat) (Wn : R) :
  0 < Wn < 1 -> signal.butter butter_design N Wn = inr (butter_design N Wn).
Proof.
  intros [H0 H1]. unfold signal.butter.
  destruct (Rle_dec Wn 0); [lra|]. destruct (Rle_dec 1 Wn); [lra|]. reflexivity.
Qed.

Lemma butter_invalid (N : nat) (Wn : R) :
  ~ (0 < Wn < 1) -> signal.butter butter_design N Wn = inl ValueError.
Proof.
  intro H. unfold signal.butter.
  destruct (Rle_dec Wn 0); [reflexivity|]. destruct (Rle_dec 1 Wn); [reflexivity|].
  exfalso. apply H. lra.
Qed.

(** The filtered signal [_update_filter] computes when the design succeeds. *)
Definition lowpass (cutoff : R) (x : np.array) : np.array :=
  filtfilt (fst (butter_design 5 (cutoff / nyq)))
           (snd (butter_design 5 (cutoff / nyq))) x.

Lemma update_filter_valid (x : np.array) (self : State) :
  0 < normal_cutoff self < 1 ->
  _update_filter x self =
  Done (with_line_filtered
          (set_ydata (lowpass (cutoff_frequency (params self)) x) (line_filtered self))
          self).
Proof.
  intro H. unfold _update_filter, lowpass. rewrite butter_valid by exact H.
  unfold normal_cutoff. destruct (butter_design 5 _). reflexivity.
Qed.

Lemma update_filter_invalid (x : np.array) (self : State) :
  ~ (0 < normal_cutoff self < 1) -> _update_filter x self = Raised ValueError self.
Proof.
  intro H. unfold _update_filter. rewrite butter_invalid by exact H. reflexivity.
Qed.

Lemma normal_cutoff_refresh (self : State) :
  normal_cutoff (refresh self) = val (slider_cutoff self) / nyq.
Proof. unfold normal_cutoff. rewrite params_refresh. reflexivity. Qed.

(** The state [_update] returns when the design succeeds. *)
Definition updated (self : State) : State :=
  let self5 := refresh self in
  draw_idle
    (with_line_filtered
       (set_ydata (lowpass (cutoff_frequency (params self5)) (noisy_signal self5))
          (line_filtered self5))
       self5).

Lemma update_valid (self : State) :
  0 < val (slider_cutoff self) / nyq < 1 -> _update self = Done (updated self).
Proof.
  intro H. unfold _update.
  rewrite update_filter_valid by (rewrite normal_cutoff_refresh; exact H).
  reflexivity.
Qed.

Lemma update_invalid (self : State) :
  ~ (0 < val (slider_cutoff self) / nyq < 1) ->
  _update self = Raised ValueError (refresh self).
Proof.
  intro H. unfold _update.
  rewrite update_filter_invalid by (rewrite normal_cutoff_refresh; exact H).
  reflexivity.
Qed.

(** Whatever the outcome, [_update] ends in the refreshed state, up to the
    filtered line and the redraw request. *)
Lemma final_update (self : State) :
  final (_update self) = updated self \/ final (_update self) = refresh self.
Proof.
  destruct (Rlt_dec 0 (val (slider_cutoff self) / nyq)) as [H0 | H0];
    [destruct (Rlt_dec (val (slider_cutoff self) / nyq) 1) as [H1 | H1] |].
  - left. rewrite update_valid by (split; assumption). reflexivity.
  - right. rewrite update_invalid by (intros [_ H]; contradiction). reflexivity.
  - right. rewrite update_invalid by (intros [H _]; contradiction). reflexivity.
Qed.

Lemma updated_fields (self : State) :
  params (updated self) = params (refresh self)
  /\ harmonic (updated self) = harmonic (refresh self)
  /\ noise (updated self) = noise (refresh self)
  /\ rng_pos (updated self) = rng_pos (refresh self)
  /\ line_noisy (updated self) = line_noisy (refresh self)
  /\ line_clean (updated self) = line_clean (refresh self)
  /\ (forall i, slider i (updated self) = slider i (refresh self)).
Proof. repeat split. Qed.

Lemma final_update_fields (self : State) :
  params (final (_update self)) = params (refresh self)
  /\ harmonic (final (_update self)) = harmonic (refresh self)
  /\ noise (final (_update self)) = noise (refresh self)
  /\ rng_pos (final (_update self)) = rng_pos (refresh self)
  /\ line_noisy (final (_update self)) = line_noisy (refresh self)
  /\ line_clean (final (_update self)) = line_clean (refresh self)
  /\ (forall i, slider i (final (_update self)) = slider i (refresh self)).
Proof.
  destruct (final_update self) as [H | H]; rewrite H.
  - apply updated_fields.
  - repeat split.
Qed.

(** ** Invariants of the object *)

(** [self.harmonic] is the harmonic of the current [self.params]. *)
Definition harmonic_fresh (self : State) : Prop :=
  harmonic self = _calculate_harmonic self.

(** The six numeric keys of [self.params] are what the sliders hold. *)
Definition synced (self : State) : Prop :=
  params self = params_update (params self) (read_sliders self).

(** Every slider resets to the default of its key. *)
Definition resets_to_defaults (self : State) : Prop :=
  valinit (slider_amp self) = amplitude initial_params
  /\ valinit (slider_freq self) = frequency initial_params
  /\ valinit (slider_phase self) = phase initial_params
  /\ valinit (slider_noise_mean self) = noise_mean initial_params
  /\ valinit (slider_noise_cov self) = noise_covariance initial_params
  /\ valinit (slider_cutoff self) = cutoff_frequency initial_params.

Lemma synced_fields (self : State) :
  synced self ->
  val (slider_amp self) = amplitude (params self)
  /\ val (slider_freq self) = frequency (params self)
  /\ val (slider_phase self) = phase (params self)
  /\ val (slider_noise_mean self) = noise_mean (params self)
  /\ val (slider_noise_cov self) = noise_covariance (params self)
  /\ val (slider_cutoff self) = cutoff_frequency (params self).
Proof.
  unfold synced. intro H. rewrite H. simpl. repeat split.
Qed.

(** In a synced object no test of [_update] fires. *)
Lemma synced_nothing_changed (self : State) :
  synced self ->
  harmonic_changed (read_sliders self) self = false
  /\ noise_changed (read_sliders self) self = false.
Proof.
  intro H. destruct (synced_fields self H) as (H1 & H2 & H3 & H4 & H5 & H6).
  split.
  - apply harmonic_changed_false. simpl. auto.
  - apply noise_changed_false. simpl. auto.
Qed.

Lemma refresh_fresh (self : State) :
  harmonic_fresh self -> harmonic_fresh (refresh self).
Proof.
  unfold harmonic_fresh. intro H. rewrite harmonic_refresh.
  destruct (harmonic_changed (read_sliders self) self) eqn:E.
  - apply calculate_harmonic_ext; rewrite params_refresh; reflexivity.
  - apply harmonic_changed_false in E. destruct E as (Ea & Ef & Ep).
    rewrite H. apply calculate_harmonic_ext; rewrite params_refresh; simpl;
      symmetry; assumption.
Qed.

Lemma update_fresh (self : State) :
  harmonic_fresh self -> harmonic_fresh (final (_update self)).
Proof.
  intro H. apply refresh_fresh in H. unfold harmonic_fresh in *.
  destruct (final_update_fields self) as (Hp & Hh & _).
  rewrite Hh, H. apply calculate_harmonic_ext; rewrite Hp; reflexivity.
Qed.

Lemma update_synced (self : State) : synced (final (_update self)).
Proof.
  unfold synced.
  destruct (final_update_fields self) as (Hp & _ & _ & _ & _ & _ & Hs).
  pose proof (Hs Amp) as H1. pose proof (Hs Freq) as H2.
  pose proof (Hs Phase) as H3. pose proof (Hs NoiseMean) as H4.
  pose proof (Hs NoiseCov) as H5. pose proof (Hs Cutoff) as H6.
  rewrite sliders_refresh in H1, H2, H3, H4, H5, H6.
  simpl in H1, H2, H3, H4, H5, H6.
  unfold read_sliders. rewrite H1, H2, H3, H4, H5, H6, Hp, params_refresh.
  reflexivity.
Qed.

Lemma update_resets_to_defaults (self : State) :
  resets_to_defaults self -> resets_to_defaults (final (_update self)).
Proof.
  unfold resets_to_defaults.
  destruct (final_update_fields self) as (_ & _ & _ & _ & _ & _ & Hs).
  pose proof (Hs Amp) as H1. pose proof (Hs Freq) as H2.
  pose proof (Hs Phase) as H3. pose proof (Hs NoiseMean) as H4.
  pose proof (Hs NoiseCov) as H5. pose proof (Hs Cutoff) as H6.
  rewrite sliders_refresh in H1, H2, H3, H4, H5, H6.
  simpl in H1, H2, H3, H4, H5, H6.
  rewrite H1, H2, H3, H4, H5, H6. tauto.
Qed.

(** The harmonic of the defaults: what the constructor stores. *)
Definition startup_harmonic : np.array :=
  _calculate_harmonic (blank 0).

(** C1.  The harmonic is amplitude * sin(2 pi frequency t[i] + phase) at
    every sample index i of the time base: this is what
    [_calculate_harmonic] returns for the parameters it reads, and what
    [self.harmonic] holds for the parameters in force after any [_update]
    (returned or raised) of an object whose harmonic was up to date.  The
    right-hand side names amplitude, frequency, phase and the time base
    only. *)
Theorem harmonic_synthesis (self : State) (i : nat) :
  (i < length t)%nat ->
  nth i (_calculate_harmonic self) 0
  = amplitude (params self)
    * sin (2 * PI * frequency (params self) * nth i t 0 + phase (params self))
  /\ length (_calculate_harmonic self) = length t
  /\ (harmonic_fresh self ->
      let self' := final (_update self) in
      nth i (harmonic self') 0
      = amplitude (params self')
        * sin (2 * PI * frequency (params self') * nth i t 0 + phase (params self'))).
Proof.
  intro Hi. split; [|split].
  - apply nth_calculate_harmonic. exact Hi.
  - apply length_calculate_harmonic.
  - intros Hf self'. pose proof (update_fresh self Hf) as H.
    unfold harmonic_fresh in H. fold self' in H. rewrite H.
    apply nth_calculate_harmonic. exact Hi.
Qed.

(** ** Selective recomputation *)

(** A call drew the noise again: the ambient generator has moved. *)
Definition noise_regenerated (before after : State) : bool :=
  negb (rng_pos after =? rng_pos before)%nat.

Lemma rng_pos_generate_noise (self : State) :
  snd (_generate_noise self) = (rng_pos self + 1000)%nat.
Proof. unfold _generate_noise, np.normal. cbn [snd]. rewrite length_t. reflexivity. Qed.

Lemma rng_pos_refresh (self : State) :
  rng_pos (refresh self) =
  if harmonic_changed (read_sliders self) self then rng_pos self
  else if noise_changed (read_sliders self) self then (rng_pos self + 1000)%nat
       else rng_pos self.
Proof.
  pose proof (f_equal snd (noise_refresh self)) as H. cbn [snd] in H.
  rewrite H.
  destruct (harmonic_changed (read_sliders self) self); [reflexivity|].
  destruct (noise_changed (read_sliders self) self); [|reflexivity].
  rewrite rng_pos_generate_noise. reflexivity.
Qed.

Lemma noise_refresh_kept (self : State) :
  rng_pos (refresh self) = rng_pos self -> noise (refresh self) = noise self.
Proof.
  intro Hr. pose proof (f_equal fst (noise_refresh self)) as H. cbn [fst] in H.
  rewrite rng_pos_refresh in Hr. rewrite H.
  destruct (harmonic_changed (read_sliders self) self); [reflexivity|].
  destruct (noise_changed (read_sliders self) self); [lia | reflexivity].
Qed.

(** What the code does: the second test of [_update] runs after the first
    branch has already overwritten [self.params], so the noise is drawn
    again exactly when a noise key differs and no harmonic key does. *)
Lemma noise_regenerated_update (self : State) :
  noise_regenerated self (final (_update self))
  = negb (harmonic_changed (read_sliders self) self)
    && noise_changed (read_sliders self) self.
Proof.
  unfold noise_regenerated.
  destruct (final_update_fields self) as (_ & _ & _ & Hr & _).
  rewrite Hr, rng_pos_refresh.
  destruct (harmonic_changed (read_sliders self) self);
    [rewrite Nat.eqb_refl; reflexivity|].
  destruct (noise_changed (read_sliders self) self);
    [|rewrite Nat.eqb_refl; reflexivity].
  simpl. apply negb_true_iff. apply Nat.eqb_neq. lia.
Qed.

(** With the harmonic keys unchanged, the noise is drawn again iff a noise
    key differs from the snapshot held before the call. *)
Lemma noise_regenerated_iff (self : State) :
  harmonic_changed (read_sliders self) self = false ->
  (noise_regenerated self (final (_update self)) = true <->
   val (slider_noise_mean self) <> noise_mean (params self)
   \/ val (slider_noise_cov self) <> noise_covariance (params self)).
Proof.
  intro H. rewrite noise_regenerated_update, H. simpl.
  apply noise_changed_true.
Qed.

(** When neither test fires, the arrays and the generator are untouched. *)
Lemma refresh_unchanged (self : State) :
  harmonic_changed (read_sliders self) self = false ->
  noise_changed (read_sliders self) self = false ->
  harmonic (refresh self) = harmonic self
  /\ noise (refresh self) = noise self
  /\ rng_pos (refresh self) = rng_pos self.
Proof.
  intros Hh Hn.
  assert (Hr : rng_pos (refresh self) = rng_pos self)
    by (rewrite rng_pos_refresh, Hh, Hn; reflexivity).
  rewrite harmonic_refresh, Hh. repeat split.
  - apply noise_refresh_kept. exact Hr.
  - exact Hr.
Qed.

(** C3.  Every call of [_update] whose filter design succeeds (the
    normalized cutoff read from the slider lies in (0, 1)) returns with the
    filtered line recomputed: its data is the forward-backward filter, for
    the cutoff now in [self.params], of the current harmonic plus the
    current noise.  No condition on which parameters changed, if any, is
    involved. *)
Theorem filtered_recomputed_every_call (self : State) :
  0 < val (slider_cutoff self) / nyq < 1 ->
  exists self',
    _update self = Done self'
    /\ cutoff_frequency (params self') = val (slider_cutoff self)
    /\ ydata (line_filtered self')
       = lowpass (cutoff_frequency (params self'))
                 (np.add (harmonic self') (noise self'))
    /\ draw_requests self' = S (draw_requests self).
Proof.
  intro H. exists (updated self). split; [apply update_valid; exact H|].
  destruct (lines_refresh self) as (_ & _ & _ & _ & _ & Hd).
  unfold updated. cbn. rewrite Hd. rewrite params_refresh.
  repeat split.
Qed.

(** C4.  After any call of [_update], a second call for which only the
    cutoff slider has moved (to a value the design accepts) returns with
    [self.harmonic] and [self.noise] equal to what the first call left, the
    generator not consulted, and the filtered line recomputed from them
    with the new cutoff. *)
Theorem cutoff_only_change (self : State) (c : R) :
  0 < c / nyq < 1 ->
  let self1 := final (_update self) in
  exists self2,
    on_changed Cutoff c self1 = Done self2
    /\ harmonic self2 = harmonic self1
    /\ noise self2 = noise self1
    /\ rng_pos self2 = rng_pos self1
    /\ cutoff_frequency (params self2) = c
    /\ ydata (line_filtered self2)
       = lowpass c (np.add (harmonic self1) (noise self1)).
Proof.
  intros Hc self1. unfold on_changed.
  set (s := with_slider Cutoff (set_val c (slider Cutoff self1)) self1).
  assert (Hsync : synced self1) by apply update_synced.
  destruct (synced_fields self1 Hsync) as (F1 & F2 & F3 & F4 & F5 & _).
  assert (Hh : harmonic_changed (read_sliders s) s = false)
    by (apply harmonic_changed_false; subst s; simpl; auto).
  assert (Hn : noise_changed (read_sliders s) s = false)
    by (apply noise_changed_false; subst s; simpl; auto).
  destruct (refresh_unchanged s Hh Hn) as (H1 & H2 & H3).
  exists (updated s). split; [apply update_valid; exact Hc|].
  unfold updated. cbn. rewrite params_refresh. unfold noisy_signal.
  rewrite H1, H2, H3. repeat split.
Qed.

(** C5.  Whatever the object and the signal handed in, when the normalized
    cutoff [cutoff_frequency / (0.5 * fs)] is at least 1 [_update_filter]
    raises the design error of [butter] and no filtered output is produced:
    the object, its filtered line included, is as it was. *)
Theorem filter_design_fails (noisy : np.array) (self : State) :
  1 <= cutoff_frequency (params self) / ((5 / 10) * fs) ->
  _update_filter noisy self = Raised ValueError self
  /\ line_filtered (final (_update_filter noisy self)) = line_filtered self.
Proof.
  intro H.
  assert (E : _update_filter noisy self = Raised ValueError self).
  { apply update_filter_invalid. unfold normal_cutoff, nyq. lra. }
  rewrite E. split; reflexivity.
Qed.

(** ** Failure of the filter design inside [_update] *)

(** C6 (as the code has it).  When the design fails, [_update] raises after
    its earlier statements have run: the filtered line keeps its previous
    data and no redraw is requested, while [self.params] already holds the
    slider values, a stale harmonic has been recomputed, and the noisy and
    clean lines already carry the new signals. *)
Theorem filter_failure_after_partial_update (self : State) :
  ~ (0 < val (slider_cutoff self) / nyq < 1) ->
  exists self',
    _update self = Raised ValueError self'
    /\ line_filtered self' = line_filtered self
    /\ draw_requests self' = draw_requests self
    /\ params self' = params_update (params self) (read_sliders self)
    /\ harmonic self'
       = (if harmonic_changed (read_sliders self) self
          then _calculate_harmonic self' else harmonic self)
    /\ ydata (line_noisy self') = np.add (harmonic self') (noise self')
    /\ ydata (line_clean self') = harmonic self'.
Proof.
  intro H. exists (refresh self). split; [apply update_invalid; exact H|].
  destruct (lines_refresh self) as (L1 & L2 & L3 & _ & _ & L6).
  repeat split; try assumption.
  - apply params_refresh.
  - rewrite harmonic_refresh.
    destruct (harmonic_changed (read_sliders self) self); [|reflexivity].
    apply calculate_harmonic_ext; rewrite params_refresh; reflexivity.
Qed.

(** ** Slider events are applied as they come *)

(** The key of [self.params] a slider feeds. *)
Definition key (i : slider_id) (p : Params) : R :=
  match i with
  | Amp => amplitude p
  | Freq => frequency p
  | Phase => phase p
  | NoiseMean => noise_mean p
  | NoiseCov => noise_covariance p
  | Cutoff => cutoff_frequency p
  end.


Lemma key_params_update (i : slider_id) (p : Params) (self : State) :
  key i (params_update p (read_sliders self)) = val (slider i self).
Proof. destruct i; reflexivity. Qed.

Lemma slider_with_slider (i : slider_id) (sl : Slider) (self : State) :
  slider i (with_slider i sl self) = sl.
Proof. destruct i; reflexivity. Qed.

(** C7 (as the code has it).  [_update] checks no domain: after a slider
    event with any value [v], inside the slider's range or not, the key of
    that slider in [self.params] is [v], whether the call returned or
    raised in the filter design; [show_noise] is untouched. *)
Theorem update_applies_any_value (self : State) (i : slider_id) (v : R) :
  let self' := final (on_changed i v self) in
  key i (params self') = v
  /\ val (slider i self') = v
  /\ show_noise (params self') = show_noise (params self).
Proof.
  intro self'. subst self'. unfold on_changed.
  set (s := with_slider i (set_val v (slider i self)) self).
  destruct (final_update_fields s) as (Hp & _ & _ & _ & _ & _ & Hs).
  rewrite Hp, (Hs i), params_refresh, sliders_refresh, key_params_update.
  subst s. rewrite slider_with_slider. repeat split.
Qed.

(** ** The noise check box *)

(** C8.  [_toggle_noise] flips [show_noise] and the visibility of the noisy
    and clean lines, and requests a redraw; the harmonic, the noise, the
    generator, the data of the three lines (the filtered one included), the
    six numeric parameters and the sliders are what they were. *)
Theorem toggle_noise_frame (self : State) :
  let self' := _toggle_noise self in
  harmonic self' = harmonic self
  /\ noise self' = noise self
  /\ rng_pos self' = rng_pos self
  /\ ydata (line_noisy self') = ydata (line_noisy self)
  /\ ydata (line_clean self') = ydata (line_clean self)
  /\ line_filtered self' = line_filtered self
  /\ (forall i, key i (params self') = key i (params self))
  /\ (forall i, slider i self' = slider i self)
  /\ show_noise (params self') = negb (show_noise (params self))
  /\ visible (line_noisy self') = show_noise (params self')
  /\ visible (line_clean self') = negb (show_noise (params self'))
  /\ draw_requests self' = S (draw_requests self).
Proof.
  cbn. repeat split; intro i; destruct i; reflexivity.
Qed.

(** ** The cutoff slider's range *)

(** C10.  On the time base of 1000 points over [0, 10] the sample rate is
    99.9 and the Nyquist frequency 49.95; for a cutoff in the slider's range
    [0.1, 10] the normalized cutoff is positive and strictly below 1 (at
    most 10 / 49.95), and [_update_filter] returns: the design error cannot
    be raised. *)
Theorem in_domain_cutoff_never_fails (noisy : np.array) (self : State) :
  1 / 10 <= cutoff_frequency (params self) <= 10 ->
  fs = 999 / 10
  /\ nyq = 999 / 20
  /\ 0 < cutoff_frequency (params self) / ((5 / 10) * fs) <= 200 / 999
  /\ cutoff_frequency (params self) / ((5 / 10) * fs) < 1
  /\ returns (_update_filter noisy self) = true.
Proof.
  intros [Hlo Hhi].
  assert (Hn : (5 / 10) * fs = 999 / 20) by (rewrite fs_value; field).
  assert (Hb : 0 < cutoff_frequency (params self) / (5 / 10 * fs) <= 200 / 999).
  { rewrite Hn. split.
    - apply Rdiv_lt_0_compat; lra.
    - apply (Rmult_le_reg_r (999 / 20)); [lra|]. field_simplify. lra. }
  split; [apply fs_value|]. split; [apply nyq_value|].
  split; [exact Hb|]. split; [lra|].
  rewrite update_filter_valid; [reflexivity|]. unfold normal_cutoff, nyq. lra.
Qed.

(** ** Construction *)

(** The default cutoff is accepted by the design. *)
Lemma default_cutoff_valid : 0 < cutoff_frequency initial_params / nyq < 1.
Proof. rewrite nyq_value. simpl. lra. Qed.

(** Everything the invariants need, in one predicate. *)
Definition consistent (self : State) : Prop :=
  synced self /\ harmonic_fresh self /\ resets_to_defaults self.

Lemma update_consistent (self : State) :
  harmonic_fresh self -> resets_to_defaults self ->
  consistent (final (_update self)).
Proof.
  intros Hf Hr. split; [apply update_synced|].
  split; [apply update_fresh; exact Hf | apply update_resets_to_defaults; exact Hr].
Qed.

Lemma init_spec (pos : nat) :
  exists self,
    __init__ pos = Done self
    /\ params self = initial_params
    /\ harmonic self = startup_harmonic
    /\ rng_pos self = (pos + 1000)%nat
    /\ consistent self
    /\ (forall i, val (slider i self) = key i initial_params)
    /\ visible (line_noisy self) = true
    /\ visible (line_clean self) = false.
Proof.
  unfold __init__.
  set (s := _setup_widgets _).
  assert (Hsync : synced s) by reflexivity.
  assert (Hfresh : harmonic_fresh s) by reflexivity.
  assert (Hdef : resets_to_defaults s) by (repeat split).
  destruct (synced_nothing_changed s Hsync) as (Hh & Hn).
  destruct (refresh_unchanged s Hh Hn) as (R1 & R2 & R3).
  destruct (lines_refresh s) as (_ & _ & _ & V1 & V2 & _).
  assert (Hv : 0 < val (slider_cutoff s) / nyq < 1) by apply default_cutoff_valid.
  pose proof (update_consistent s Hfresh Hdef) as Hc.
  rewrite (update_valid s Hv) in *. cbn [final] in Hc.
  exists (updated s). split; [reflexivity|].
  destruct (updated_fields s) as (Hp & Hha & _ & Hr & Hln & Hlc & Hs).
  split; [rewrite Hp, params_refresh; reflexivity|].
  split; [rewrite Hha, R1; reflexivity|].
  split; [rewrite Hr, R3; subst s; cbn; apply rng_pos_generate_noise|].
  split; [exact Hc|].
  split; [intro i; rewrite Hs, sliders_refresh; destruct i; reflexivity|].
  rewrite Hln, Hlc, V1, V2. split; reflexivity.
Qed.

(** ** Reset *)

Lemma set_val_same (sl : Slider) : val sl = valinit sl -> set_val (valinit sl) sl = sl.
Proof. destruct sl as [v vi lo hi]. simpl. intro H. subst. reflexivity. Qed.

Lemma slider_with_slider_other (i j : slider_id) (sl : Slider) (self : State) :
  i <> j -> slider j (with_slider i sl self) = slider j self.
Proof. intro H. destruct i, j; try reflexivity; contradiction. Qed.

(** One [Slider.reset()]: provided the design accepts the cutoff the object
    will have, the call returns, the slider holds its [valinit], the other
    sliders are untouched and the invariants survive. *)
Lemma slider_reset_spec (i : slider_id) (self : State) :
  consistent self ->
  0 < (if match i with Cutoff => true | _ => false end
       then valinit (slider_cutoff self) else val (slider_cutoff self)) / nyq < 1 ->
  exists self',
    slider_reset i self = Done self'
    /\ consistent self'
    /\ val (slider i self') = valinit (slider i self)
    /\ (forall j, i <> j -> slider j self' = slider j self)
    /\ (forall j, valinit (slider j self') = valinit (slider j self))
    /\ show_noise (params self') = show_noise (params self)
    /\ draw_requests self'
       = ((if Rneb (val (slider i self)) (valinit (slider i self)) then 1 else 0)
          + draw_requests self)%nat.
Proof.
  intros (Hsync & Hfresh & Hdef) Hv. unfold slider_reset.
  destruct (Rneb (val (slider i self)) (valinit (slider i self))) eqn:E.
  - set (s := with_slider i (set_val (valinit (slider i self)) (slider i self)) self).
    assert (Hv' : 0 < val (slider_cutoff s) / nyq < 1)
      by (subst s; destruct i; exact Hv).
    assert (Hfresh' : harmonic_fresh s) by exact Hfresh.
    assert (Hdef' : resets_to_defaults s)
      by (subst s; unfold resets_to_defaults in *; destruct i; exact Hdef).
    pose proof (update_consistent s Hfresh' Hdef') as Hc.
    rewrite (update_valid s Hv') in *. cbn [final] in Hc.
    exists (updated s). split; [reflexivity|]. split; [exact Hc|].
    destruct (updated_fields s) as (Hp & _ & _ & _ & _ & _ & Hs).
    destruct (lines_refresh s) as (_ & _ & _ & _ & _ & Hd).
    split; [rewrite Hs, sliders_refresh; subst s; rewrite slider_with_slider;
            reflexivity|].
    split; [intros j Hj; rewrite Hs, sliders_refresh; subst s;
            apply slider_with_slider_other; exact Hj|].
    split; [intro j; rewrite Hs, sliders_refresh; subst s; destruct i, j;
            reflexivity|].
    split; [rewrite Hp, params_refresh; reflexivity|].
    unfold updated. cbn. rewrite Hd. reflexivity.
  - apply Rneb_false_iff in E. exists self.
    split; [reflexivity|]. split; [exact (conj Hsync (conj Hfresh Hdef))|].
    split; [exact E|]. repeat split.
Qed.

Lemma valinit_defaults (self : State) (i : slider_id) :
  resets_to_defaults self -> valinit (slider i self) = key i initial_params.
Proof.
  intros (H1 & H2 & H3 & H4 & H5 & H6). destruct i; assumption.
Qed.

Lemma synced_key (self : State) (i : slider_id) :
  synced self -> key i (params self) = val (slider i self).
Proof.
  intro H. destruct (synced_fields self H) as (H1 & H2 & H3 & H4 & H5 & H6).
  destruct i; symmetry; assumption.
Qed.

(** The sliders that do not hold their default: those whose reset runs
    [_update]. *)
Definition off_default (self : State) : nat :=
  length
    (filter (fun i => Rneb (val (slider i self)) (valinit (slider i self)))
       [Amp; Freq; Phase; NoiseMean; NoiseCov; Cutoff]).

Ltac other_slider O j :=
  let K := fresh "K" in
  assert (K := O j ltac:(discriminate)); cbn [slider] in K.

Lemma reset_spec (self : State) :
  consistent self ->
  0 < val (slider_cutoff self) / nyq < 1 ->
  exists self',
    _reset self = Done self'
    /\ consistent self'
    /\ (forall i, val (slider i self') = key i initial_params)
    /\ (forall i, key i (params self') = key i initial_params)
    /\ show_noise (params self') = show_noise (params self)
    /\ harmonic self' = startup_harmonic
    /\ draw_requests self' = (off_default self + draw_requests self)%nat.
Proof.
  intros C0 Hv. unfold _reset.
  destruct (slider_reset_spec Amp self C0 Hv)
    as (s1 & E1 & C1 & V1 & O1 & I1 & N1 & D1).
  rewrite E1. cbn [bind].
  assert (Hv1 : 0 < val (slider_cutoff s1) / nyq < 1)
    by (other_slider O1 Cutoff; rewrite K; exact Hv).
  destruct (slider_reset_spec Freq s1 C1 Hv1)
    as (s2 & E2 & C2 & V2 & O2 & I2 & N2 & D2).
  rewrite E2. cbn [bind].
  assert (Hv2 : 0 < val (slider_cutoff s2) / nyq < 1)
    by (other_slider O2 Cutoff; rewrite K; exact Hv1).
  destruct (slider_reset_spec Phase s2 C2 Hv2)
    as (s3 & E3 & C3 & V3 & O3 & I3 & N3 & D3).
  rewrite E3. cbn [bind].
  assert (Hv3 : 0 < val (slider_cutoff s3) / nyq < 1)
    by (other_slider O3 Cutoff; rewrite K; exact Hv2).
  destruct (slider_reset_spec NoiseMean s3 C3 Hv3)
    as (s4 & E4 & C4 & V4 & O4 & I4 & N4 & D4).
  rewrite E4. cbn [bind].
  assert (Hv4 : 0 < val (slider_cutoff s4) / nyq < 1)
    by (other_slider O4 Cutoff; rewrite K; exact Hv3).
  destruct (slider_reset_spec NoiseCov s4 C4 Hv4)
    as (s5 & E5 & C5 & V5 & O5 & I5 & N5 & D5).
  rewrite E5. cbn [bind].
  assert (Hv5 : 0 < valinit (slider_cutoff s5) / nyq < 1).
  { destruct C5 as (_ & _ & Hd).
    change (slider_cutoff s5) with (slider Cutoff s5).
    rewrite (valinit_defaults s5 Cutoff Hd). apply default_cutoff_valid. }
  destruct (slider_reset_spec Cutoff s5 C5 Hv5)
    as (s6 & E6 & C6 & V6 & O6 & I6 & N6 & D6).
  exists s6. split; [exact E6|]. split; [exact C6|].
  assert (Hvals : forall i, val (slider i s6) = key i initial_params).
  { destruct C0 as (_ & _ & Hd0).
    intro i. rewrite <- (valinit_defaults self i Hd0).
    destruct i.
    - rewrite (O6 Amp), (O5 Amp), (O4 Amp), (O3 Amp), (O2 Amp) by discriminate.
      exact V1.
    - rewrite (O6 Freq), (O5 Freq), (O4 Freq), (O3 Freq) by discriminate.
      rewrite V2. apply I1.
    - rewrite (O6 Phase), (O5 Phase), (O4 Phase) by discriminate.
      rewrite V3, I2. apply I1.
    - rewrite (O6 NoiseMean), (O5 NoiseMean) by discriminate.
      rewrite V4, I3, I2. apply I1.
    - rewrite (O6 NoiseCov) by discriminate.
      rewrite V5, I4, I3, I2. apply I1.
    - rewrite V6, I5, I4, I3, I2. apply I1. }
  assert (Hkeys : forall i, key i (params s6) = key i initial_params).
  { intro i. destruct C6 as (Hs & _). rewrite (synced_key s6 i Hs). apply Hvals. }
  split; [exact Hvals|]. split; [exact Hkeys|].
  split; [rewrite N6, N5, N4, N3, N2; exact N1|].
  split.
  - destruct C6 as (_ & Hf & _). rewrite Hf. unfold startup_harmonic.
    apply calculate_harmonic_ext;
      [apply (Hkeys Amp) | apply (Hkeys Freq) | apply (Hkeys Phase)].
  - rewrite D6, D5, D4, D3, D2, D1.
    rewrite (O5 Cutoff), (O4 Cutoff), (O3 Cutoff), (O2 Cutoff), (O1 Cutoff)
      by discriminate.
    rewrite (O4 NoiseCov), (O3 NoiseCov), (O2 NoiseCov), (O1 NoiseCov)
      by discriminate.
    rewrite (O3 NoiseMean), (O2 NoiseMean), (O1 NoiseMean) by discriminate.
    rewrite (O2 Phase), (O1 Phase) by discriminate.
    rewrite (O1 Freq) by discriminate.
    unfold off_default. cbn [filter].
    destruct (Rneb (val (slider Amp self)) (valinit (slider Amp self)));
    destruct (Rneb (val (slider Freq self)) (valinit (slider Freq self)));
    destruct (Rneb (val (slider Phase self)) (valinit (slider Phase self)));
    destruct (Rneb (val (slider NoiseMean self)) (valinit (slider NoiseMean self)));
    destruct (Rneb (val (slider NoiseCov self)) (valinit (slider NoiseCov self)));
    destruct (Rneb (val (slider Cutoff self)) (valinit (slider Cutoff self)));
    cbn [length]; lia.
Qed.

(** C9 (as the code has it).  From an object whose parameters, sliders and
    harmonic agree and whose cutoff the design accepts, [_reset] returns
    with the six slider-backed keys of [self.params] (amplitude, frequency,
    phase, noise_mean, noise_covariance, cutoff_frequency) and the six
    sliders at their defaults and with [self.harmonic] equal to the harmonic
    of startup.  [show_noise] is left as it was, and [_update] has run once
    for each slider that was off its default. *)
Theorem reset_restores_sliders (self : State) :
  consistent self ->
  0 < val (slider_cutoff self) / nyq < 1 ->
  exists self',
    _reset self = Done self'
    /\ (forall i, key i (params self') = key i initial_params)
    /\ (forall i, val (slider i self') = key i initial_params)
    /\ harmonic self' = startup_harmonic
    /\ show_noise (params self') = show_noise (params self)
    /\ draw_requests self' = (off_default self + draw_requests self)%nat.
Proof.
  intros C0 Hv.
  destruct (reset_spec self C0 Hv) as (s & E & _ & Hvals & Hkeys & Hn & Hh & Hd).
  exists s. repeat split; assumption.
Qed.

(** ** One slider event on a consistent object *)

Lemma on_changed_spec (i : slider_id) (v : R) (self : State) :
  consistent self ->
  let cutoff := match i with Cutoff => v | _ => val (slider_cutoff self) end in
  let self' := final (on_changed i v self) in
  consistent self'
  /\ key i (params self') = v
  /\ (forall j, i <> j -> key j (params self') = key j (params self))
  /\ show_noise (params self') = show_noise (params self)
  /\ val (slider_cutoff self') = cutoff
  /\ (0 < cutoff / nyq < 1 -> on_changed i v self = Done self')
  /\ (~ (0 < cutoff / nyq < 1) ->
      on_changed i v self = Raised ValueError self'
      /\ line_filtered self' = line_filtered self).
Proof.
  intros (Hsync & Hfresh & Hdef) cutoff self'. subst self'. unfold on_changed.
  set (s := with_slider i (set_val v (slider i self)) self).
  assert (Hfresh' : harmonic_fresh s) by exact Hfresh.
  assert (Hdef' : resets_to_defaults s)
    by (subst s; unfold resets_to_defaults in *; destruct i; exact Hdef).
  assert (Hcut : val (slider_cutoff s) = cutoff) by (subst s; destruct i; reflexivity).
  destruct (final_update_fields s) as (Hp & _ & _ & _ & _ & _ & Hs).
  split; [apply update_consistent; assumption|].
  split; [rewrite Hp, params_refresh, key_params_update; subst s;
          rewrite slider_with_slider; reflexivity|].
  split; [intros j Hj; rewrite Hp, params_refresh, key_params_update; subst s;
          rewrite (slider_with_slider_other i j _ _ Hj); symmetry;
          apply synced_key; exact Hsync|].
  split; [rewrite Hp, params_refresh; reflexivity|].
  split; [change (slider_cutoff (final (_update s)))
            with (slider Cutoff (final (_update s)));
          rewrite Hs, sliders_refresh; exact Hcut|].
  rewrite <- Hcut. split.
  - intro Hv. rewrite (update_valid s Hv). reflexivity.
  - intro Hv. rewrite (update_invalid s Hv). split; [reflexivity|].
    destruct (lines_refresh s) as (_ & _ & L & _). exact L.
Qed.

(** After [_update], returned or raised, the clean line shows the harmonic
    and the noisy line the harmonic plus the noise. *)
Lemma update_lines (self : State) :
  ydata (line_clean (final (_update self))) = harmonic (final (_update self))
  /\ ydata (line_noisy (final (_update self)))
     = np.add (harmonic (final (_update self))) (noise (final (_update self))).
Proof.
  destruct (final_update_fields self) as (_ & Hh & Hn & _ & Hln & Hlc & _).
  destruct (lines_refresh self) as (L1 & L2 & _).
  rewrite Hh, Hn, Hln, Hlc, L1, L2. split; reflexivity.
Qed.

(** ** Shapes *)

(** Both arrays have one value per sample of the time base.  This is what
    makes [harmonic + noise] an addition of equal shapes and keeps the
    signal handed to [filtfilt] at 1000 samples. *)
Definition shaped (self : State) : Prop :=
  length (harmonic self) = length t /\ length (noise self) = length t.

Lemma length_generate_noise (self : State) :
  length (fst (_generate_noise self)) = length t.
Proof.
  unfold _generate_noise, np.normal. cbn [fst].
  rewrite length_map. apply length_seq.
Qed.

Lemma refresh_shaped (self : State) : shaped self -> shaped (refresh self).
Proof.
  intros (Hh & Hn). split.
  - rewrite harmonic_refresh.
    destruct (harmonic_changed (read_sliders self) self);
      [apply length_calculate_harmonic | exact Hh].
  - pose proof (f_equal fst (noise_refresh self)) as H. cbn [fst] in H.
    rewrite H.
    destruct (harmonic_changed (read_sliders self) self); [exact Hn|].
    destruct (noise_changed (read_sliders self) self);
      [apply length_generate_noise | exact Hn].
Qed.

Lemma update_shaped (self : State) : shaped self -> shaped (final (_update self)).
Proof.
  intro H. apply refresh_shaped in H. unfold shaped in *.
  destruct (final_update_fields self) as (_ & Hh & Hn & _).
  rewrite Hh, Hn. exact H.
Qed.

Lemma init_shaped (pos : nat) : shaped (final (__init__ pos)).
Proof.
  unfold __init__. apply update_shaped. split.
  - apply length_calculate_harmonic.
  - apply (length_generate_noise (with_harmonic (_calculate_harmonic (blank pos))
                                    (blank pos))).
Qed.

Lemma length_add (x y : np.array) :
  length x = length y -> length (np.add x y) = length x.
Proof.
  intro H. unfold np.add. rewrite length_map, length_combine, <- H.
  apply Nat.min_id.
Qed.

(** ** The noise test on the calls the class makes *)

(** What holds of the object whenever [_update] is entered: at most one
    slider holds a value other than its key in [self.params].  The
    constructor calls [_update] on sliders just built from [self.params];
    a slider calls it right after storing one value, on an object the
    previous call left with [self.params] equal to the sliders (the
    [params.update] before the filter). *)
Definition one_slider_moved (self : State) : Prop :=
  exists i, forall j, j <> i -> val (slider j self) = key j (params self).

Lemma synced_no_slider_moved (self : State) :
  synced self -> one_slider_moved self.
Proof.
  intro H. exists Amp. intros j _. symmetry. apply synced_key, H.
Qed.

Lemma synced_one_slider_moved (i : slider_id) (v : R) (self : State) :
  synced self ->
  one_slider_moved (with_slider i (set_val v (slider i self)) self).
Proof.
  intro H. exists i. intros j Hj.
  rewrite (slider_with_slider_other i j) by (intro E; apply Hj; symmetry; exact E).
  symmetry. apply (synced_key self j H).
Qed.


End HarmonicVisualizer.

(** ** The object in the sample world *)

Definition sample_init : nat -> outcome :=
  __init__ sample_gauss sample_design sample_filtfilt.

Definition sample_update : State -> outcome :=
  _update sample_gauss sample_design sample_filtfilt.

Definition sample_on_changed : slider_id -> R -> State -> outcome :=
  on_changed sample_gauss sample_design sample_filtfilt.

Definition sample_reset : State -> outcome :=
  _reset sample_gauss sample_design sample_filtfilt.

(** The object as the constructor leaves it. *)
Definition startup : State := final (sample_init 0).

Lemma startup_spec :
  sample_init 0 = Done startup
  /\ params startup = initial_params
  /\ harmonic startup = startup_harmonic
  /\ rng_pos startup = 1000%nat
  /\ consistent startup
  /\ (forall i, val (slider i startup) = key i initial_params).
Proof.
  destruct (init_spec sample_gauss sample_design sample_filtfilt 0)
    as (s & E & Hp & Hh & Hr & Hc & Hv & _).
  unfold startup, sample_init. rewrite E. cbn [final].
  exact (conj eq_refl (conj Hp (conj Hh (conj Hr (conj Hc Hv))))).
Qed.

Lemma startup_cutoff : val (slider_cutoff startup) = 2.
Proof.
  destruct startup_spec as (_ & _ & _ & _ & _ & Hv). exact (Hv Cutoff).
Qed.

Lemma cutoff_2_valid : 0 < 2 / nyq < 1.
Proof. rewrite nyq_value. lra. Qed.

Lemma cutoff_5_valid : 0 < 5 / nyq < 1.
Proof. rewrite nyq_value. lra. Qed.

Lemma cutoff_60_invalid : ~ (0 < 60 / nyq < 1).
Proof. rewrite nyq_value. lra. Qed.

Lemma toggle_consistent (self : State) :
  consistent self -> consistent (_toggle_noise self).
Proof.
  intros (Hs & Hf & Hd). split; [|split].
  - destruct (synced_fields self Hs) as (F1 & F2 & F3 & F4 & F5 & F6).
    unfold synced, params_update. cbn. rewrite F1, F2, F3, F4, F5, F6. reflexivity.
  - exact Hf.
  - exact Hd.
Qed.

(** The second sample of the harmonic is positive for the default
    frequency and phase: the argument of the sine is 6 pi / 999. *)
Lemma second_sample_positive :
  0 < sin (2 * PI * frequency initial_params * nth 1 t 0 + phase initial_params).
Proof.
  rewrite nth_t by lia. cbn [frequency phase initial_params INR].
  pose proof PI_RGT_0 as Hpi.
  apply sin_gt_0; lra.
Qed.

(** ** Instances and counterexamples *)

Lemma harmonic_synthesis_witness :
  (1 < length t)%nat
  /\ nth 1 (_calculate_harmonic startup) 0
     = amplitude (params startup)
       * sin (2 * PI * frequency (params startup) * nth 1 t 0 + phase (params startup)).
Proof.
  assert (Hi : (1 < length t)%nat) by (rewrite length_t; lia).
  split; [exact Hi|].
  exact (proj1 (harmonic_synthesis sample_gauss sample_design sample_filtfilt
                  startup 1 Hi)).
Defined.

Lemma filtered_recomputed_every_call_witness :
  0 < val (slider_cutoff startup) / nyq < 1
  /\ exists self',
       sample_update startup = Done self'
       /\ cutoff_frequency (params self') = val (slider_cutoff startup)
       /\ ydata (line_filtered self')
          = lowpass sample_design sample_filtfilt (cutoff_frequency (params self'))
              (np.add (harmonic self') (noise self'))
       /\ draw_requests self' = S (draw_requests startup).
Proof.
  assert (H : 0 < val (slider_cutoff startup) / nyq < 1)
    by (rewrite startup_cutoff; exact cutoff_2_valid).
  split; [exact H|].
  exact (filtered_recomputed_every_call sample_gauss sample_design sample_filtfilt
           startup H).
Defined.

Lemma cutoff_only_change_witness :
  0 < 5 / nyq < 1
  /\ exists self2,
       sample_on_changed Cutoff 5 (final (sample_update startup)) = Done self2
       /\ harmonic self2 = harmonic (final (sample_update startup))
       /\ noise self2 = noise (final (sample_update startup))
       /\ rng_pos self2 = rng_pos (final (sample_update startup))
       /\ cutoff_frequency (params self2) = 5
       /\ ydata (line_filtered self2)
          = lowpass sample_design sample_filtfilt 5
              (np.add (harmonic (final (sample_update startup)))
                      (noise (final (sample_update startup)))).
Proof.
  split; [exact cutoff_5_valid|].
  exact (cutoff_only_change sample_gauss sample_design sample_filtfilt
           startup 5 cutoff_5_valid).
Defined.

(** The object with 60 stored under [cutoff_frequency]. *)
Definition cutoff_60 : State :=
  with_params (mkParams 1 (3 / 10) 0 0 (15 / 100) 60 true) startup.

Lemma filter_design_fails_witness :
  1 <= cutoff_frequency (params cutoff_60) / ((5 / 10) * fs)
  /\ _update_filter sample_design sample_filtfilt (noisy_signal cutoff_60) cutoff_60
     = Raised ValueError cutoff_60
  /\ line_filtered
       (final (_update_filter sample_design sample_filtfilt
                 (noisy_signal cutoff_60) cutoff_60))
     = line_filtered cutoff_60.
Proof.
  assert (H : 1 <= cutoff_frequency (params cutoff_60) / ((5 / 10) * fs))
    by (cbn [cutoff_frequency params cutoff_60 with_params]; rewrite fs_value; lra).
  split; [exact H|].
  exact (filter_design_fails sample_design sample_filtfilt
           (noisy_signal cutoff_60) cutoff_60 H).
Defined.

Lemma in_domain_cutoff_never_fails_witness :
  1 / 10 <= cutoff_frequency (params startup) <= 10
  /\ cutoff_frequency (params startup) / ((5 / 10) * fs) < 1
  /\ returns (_update_filter sample_design sample_filtfilt
                (noisy_signal startup) startup) = true.
Proof.
  assert (H : 1 / 10 <= cutoff_frequency (params startup) <= 10).
  { destruct startup_spec as (_ & Hp & _). rewrite Hp. cbn. lra. }
  split; [exact H|].
  destruct (in_domain_cutoff_never_fails sample_design sample_filtfilt
              (noisy_signal startup) startup H) as (_ & _ & _ & H1 & H2).
  split; assumption.
Defined.

(** *** Failure of the design with the cutoff slider at 60 *)

(** The cutoff slider set to 60 and [_update] run: the call raises. *)
Definition after_cutoff_60 : State := final (sample_on_changed Cutoff 60 startup).

Lemma after_cutoff_60_spec :
  sample_on_changed Cutoff 60 startup = Raised ValueError after_cutoff_60
  /\ consistent after_cutoff_60
  /\ val (slider_cutoff after_cutoff_60) = 60
  /\ params after_cutoff_60 = mkParams 1 (3 / 10) 0 0 (15 / 100) 60 true
  /\ line_filtered after_cutoff_60 = line_filtered startup.
Proof.
  destruct startup_spec as (_ & Hp & _ & _ & Hc & _).
  destruct (on_changed_spec sample_gauss sample_design sample_filtfilt
              Cutoff 60 startup Hc) as (C & K & O & N & V & _ & Hbad).
  destruct (Hbad cutoff_60_invalid) as (E & L).
  fold sample_on_changed in *. fold after_cutoff_60 in *.
  split; [exact E|]. split; [exact C|]. split; [exact V|]. split; [|exact L].
  assert (K1 := O Amp ltac:(discriminate)). assert (K2 := O Freq ltac:(discriminate)).
  assert (K3 := O Phase ltac:(discriminate)).
  assert (K4 := O NoiseMean ltac:(discriminate)).
  assert (K5 := O NoiseCov ltac:(discriminate)).
  rewrite Hp in K1, K2, K3, K4, K5, N. cbn in K, K1, K2, K3, K4, K5, N.
  destruct (params after_cutoff_60). cbn in *. subst. reflexivity.
Qed.

Lemma filter_failure_after_partial_update_witness :
  ~ (0 < val (slider_cutoff after_cutoff_60) / nyq < 1)
  /\ exists self',
       sample_update after_cutoff_60 = Raised ValueError self'
       /\ line_filtered self' = line_filtered after_cutoff_60
       /\ params self'
          = params_update (params after_cutoff_60) (read_sliders after_cutoff_60).
Proof.
  assert (H : ~ (0 < val (slider_cutoff after_cutoff_60) / nyq < 1)).
  { destruct after_cutoff_60_spec as (_ & _ & V & _). rewrite V.
    exact cutoff_60_invalid. }
  split; [exact H|].
  destruct (filter_failure_after_partial_update sample_gauss sample_design
              sample_filtfilt after_cutoff_60 H) as (s & E & L & _ & P & _).
  exists s. repeat split; assumption.
Defined.

(** With the cutoff slider at 60, the amplitude slider is moved from 1 to
    2.  [_update] raises in the filter design, the filtered line keeps its
    data, and yet the amplitude in [self.params] is now 2 and the clean
    line carries the new harmonic: its second sample has doubled. *)
Lemma atomicity_counterexample :
  exists self',
    sample_on_changed Amp 2 after_cutoff_60 = Raised ValueError self'
    /\ line_filtered self' = line_filtered after_cutoff_60
    /\ amplitude (params after_cutoff_60) = 1
    /\ amplitude (params self') = 2
    /\ nth 1 (ydata (line_clean self')) 0
       = 2 * nth 1 (ydata (line_clean after_cutoff_60)) 0
    /\ 0 < nth 1 (ydata (line_clean after_cutoff_60)) 0
    /\ self' <> after_cutoff_60.
Proof.
  destruct after_cutoff_60_spec as (_ & C & V & P & _).
  destruct (on_changed_spec sample_gauss sample_design sample_filtfilt
              Amp 2 after_cutoff_60 C) as (C' & K & O & _ & _ & _ & Hbad).
  cbn zeta in Hbad. rewrite V in Hbad.
  destruct (Hbad cutoff_60_invalid) as (E & L).
  fold sample_on_changed in *.
  set (self' := final (sample_on_changed Amp 2 after_cutoff_60)) in *.
  assert (Hi : (1 < length t)%nat) by (rewrite length_t; lia).
  assert (Hold : nth 1 (ydata (line_clean after_cutoff_60)) 0
                 = sin (2 * PI * frequency initial_params * nth 1 t 0
                        + phase initial_params)).
  { destruct (update_lines sample_gauss sample_design sample_filtfilt
                (with_slider Cutoff (set_val 60 (slider Cutoff startup)) startup))
      as (Hl & _).
    change (ydata (line_clean after_cutoff_60) = harmonic after_cutoff_60) in Hl.
    destruct C as (_ & Hf & _). rewrite Hl, Hf.
    rewrite nth_calculate_harmonic by exact Hi. rewrite P. cbn. lra. }
  assert (Hnew : nth 1 (ydata (line_clean self')) 0
                 = 2 * sin (2 * PI * frequency initial_params * nth 1 t 0
                            + phase initial_params)).
  { destruct (update_lines sample_gauss sample_design sample_filtfilt
                (with_slider Amp (set_val 2 (slider Amp after_cutoff_60))
                   after_cutoff_60)) as (Hl & _).
    change (ydata (line_clean self') = harmonic self') in Hl.
    destruct C' as (_ & Hf & _). rewrite Hl, Hf.
    rewrite nth_calculate_harmonic by exact Hi.
    assert (K2 := O Freq ltac:(discriminate)).
    assert (K3 := O Phase ltac:(discriminate)).
    cbn [key] in K, K2, K3. rewrite K, K2, K3, P. reflexivity. }
  exists self'. split; [exact E|]. split; [exact L|].
  split; [rewrite P; reflexivity|]. split; [exact K|].
  split; [rewrite Hnew, Hold; reflexivity|].
  split; [rewrite Hold; exact second_sample_positive|].
  intro Heq. rewrite Heq in K. rewrite P in K. cbn in K. lra.
Qed.

(** *** A value outside the documented domain *)

(** The amplitude slider is given 5, outside [0.1, 2.0].  Nothing rejects
    it: [_update] returns and the amplitude in [self.params], 1 before, is
    now 5. *)
Lemma validation_counterexample :
  ~ (1 / 10 <= 5 <= 2)
  /\ amplitude (params startup) = 1
  /\ exists self',
       sample_on_changed Amp 5 startup = Done self'
       /\ amplitude (params self') = 5
       /\ params self' <> params startup.
Proof.
  destruct startup_spec as (_ & Hp & _ & _ & Hc & Hv).
  destruct (on_changed_spec sample_gauss sample_design sample_filtfilt
              Amp 5 startup Hc) as (_ & K & _ & _ & _ & Hok & _).
  cbn zeta in Hok. rewrite startup_cutoff in Hok.
  split; [lra|]. split; [rewrite Hp; reflexivity|].
  exists (final (sample_on_changed Amp 5 startup)).
  split; [exact (Hok cutoff_2_valid)|]. split; [exact K|].
  intro Heq. fold sample_on_changed in K. rewrite Heq, Hp in K. cbn in K. lra.
Qed.

(** *** Reset *)

(** The amplitude slider moved to 2. *)
Definition amplitude_2 : State := final (sample_on_changed Amp 2 startup).

Lemma amplitude_2_spec :
  sample_on_changed Amp 2 startup = Done amplitude_2
  /\ consistent amplitude_2
  /\ amplitude (params amplitude_2) = 2
  /\ show_noise (params amplitude_2) = true
  /\ val (slider_cutoff amplitude_2) = 2.
Proof.
  destruct startup_spec as (_ & Hp & _ & _ & Hc & _).
  destruct (on_changed_spec sample_gauss sample_design sample_filtfilt
              Amp 2 startup Hc) as (C & K & _ & N & V & Hok & _).
  cbn zeta in Hok, V. rewrite startup_cutoff in Hok, V.
  fold sample_on_changed in *. fold amplitude_2 in *.
  split; [exact (Hok cutoff_2_valid)|]. split; [exact C|]. split; [exact K|].
  split; [rewrite N, Hp; reflexivity | exact V].
Qed.

Lemma reset_restores_sliders_witness :
  consistent amplitude_2
  /\ 0 < val (slider_cutoff amplitude_2) / nyq < 1
  /\ exists self',
       sample_reset amplitude_2 = Done self'
       /\ amplitude (params self') = 1
       /\ harmonic self' = startup_harmonic
       /\ show_noise (params self') = show_noise (params amplitude_2).
Proof.
  destruct amplitude_2_spec as (_ & C & _ & _ & V).
  assert (H : 0 < val (slider_cutoff amplitude_2) / nyq < 1)
    by (rewrite V; exact cutoff_2_valid).
  split; [exact C|]. split; [exact H|].
  destruct (reset_restores_sliders sample_gauss sample_design sample_filtfilt
              amplitude_2 C H) as (s & E & Hk & _ & Hh & Hn & _).
  exists s. split; [exact E|]. split; [exact (Hk Amp)|]. split; assumption.
Defined.

(** The amplitude slider is moved to 2, the check box is unticked, Reset is
    pressed.  The amplitude is back at 1, but [show_noise], whose default
    is true, is still false. *)
Lemma reset_counterexample :
  show_noise initial_params = true
  /\ exists self',
       sample_reset (_toggle_noise amplitude_2) = Done self'
       /\ amplitude (params self') = 1
       /\ show_noise (params self') = false.
Proof.
  destruct amplitude_2_spec as (_ & C & _ & N & V).
  assert (C' : consistent (_toggle_noise amplitude_2))
    by (apply toggle_consistent; exact C).
  assert (H : 0 < val (slider_cutoff (_toggle_noise amplitude_2)) / nyq < 1)
    by (change (0 < val (slider_cutoff amplitude_2) / nyq < 1);
        rewrite V; exact cutoff_2_valid).
  destruct (reset_spec sample_gauss sample_design sample_filtfilt
              (_toggle_noise amplitude_2) C' H)
    as (s & E & _ & _ & Hk & Hn & _).
  split; [reflexivity|]. exists s. split; [exact E|].
  split; [exact (Hk Amp)|].
  rewrite Hn. change (negb (show_noise (params amplitude_2)) = false).
  rewrite N. reflexivity.
Qed.

(** *** Two sliders read in one call *)

(** The object at startup with the amplitude slider at 2 and the noise-mean
    slider at 0.3, [_update] not yet run. *)
Definition joint_change : State :=
  with_slider NoiseMean (set_val (3 / 10) (slider_noise_mean startup))
    (with_slider Amp (set_val 2 (slider_amp startup)) startup).

(** Outside what the callbacks produce.  At [joint_change] the noise mean
    read from the slider, 0.3, differs from the one in [self.params], 0, and
    so does the amplitude; [_update] returns with 0.3 stored in
    [self.params] and the noise not drawn again, the first branch having
    overwritten [self.params] before the noise test.  No call the class
    makes starts from such an object ([one_slider_moved]). *)
Lemma noise_kept_on_joint_change :
  noise_mean (params joint_change) = 0
  /\ val (slider_noise_mean joint_change) = 3 / 10
  /\ val (slider_noise_mean joint_change) <> noise_mean (params joint_change)
  /\ exists self',
       sample_update joint_change = Done self'
       /\ noise_mean (params self') = 3 / 10
       /\ amplitude (params self') = 2
       /\ noise self' = noise joint_change
       /\ rng_pos self' = rng_pos joint_change
       /\ noise_regenerated joint_change self' = false.
Proof.
  destruct startup_spec as (_ & Hp & _ & _ & _ & Hv).
  assert (P : params joint_change = initial_params) by exact Hp.
  assert (Hcut : 0 < val (slider_cutoff joint_change) / nyq < 1).
  { change (0 < val (slider_cutoff startup) / nyq < 1).
    rewrite startup_cutoff. exact cutoff_2_valid. }
  assert (Hh : harmonic_changed (read_sliders joint_change) joint_change = true).
  { unfold harmonic_changed. rewrite P. cbn.
    rewrite (Rneb_neq 2 1) by lra. reflexivity. }
  assert (Hr : rng_pos (refresh sample_gauss joint_change) = rng_pos joint_change)
    by (rewrite rng_pos_refresh, Hh; reflexivity).
  pose proof (noise_regenerated_update sample_gauss sample_design sample_filtfilt
                joint_change) as Hreg.
  rewrite Hh in Hreg. cbn [negb andb] in Hreg.
  unfold sample_update.
  rewrite (update_valid _ _ _ joint_change Hcut) in *. cbn [final] in Hreg.
  destruct (updated_fields sample_gauss sample_design sample_filtfilt joint_change)
    as (Hpu & _ & Hn & Hrp & _).
  rewrite P. split; [reflexivity|]. split; [reflexivity|].
  split; [cbn; lra|].
  exists (updated sample_gauss sample_design sample_filtfilt joint_change).
  split; [reflexivity|].
  split; [rewrite Hpu, params_refresh; reflexivity|].
  split; [rewrite Hpu, params_refresh; reflexivity|].
  split; [rewrite Hn; apply noise_refresh_kept; exact Hr|].
  split; [rewrite Hrp; exact Hr | exact Hreg].
Qed.



(** * More of the visualizer *)

Arguments refresh : simpl never.
Arguments _calculate_harmonic : simpl never.
Arguments _generate_noise : simpl never.

Section VisualizerBehaviour.

Variable gauss : nat -> R.
Variable butter_design : nat -> R -> signal.ba.
Variable filtfilt : np.array -> np.array -> np.array -> np.array.

(** ** The waveform *)

(** X1.  No sample of the harmonic exceeds the amplitude in absolute value. *)
Theorem harmonic_within_amplitude (self : State) (i : nat) :
  Rabs (nth i (_calculate_harmonic self) 0) <= Rabs (amplitude (params self)).
Proof.
  destruct (Nat.lt_ge_cases i (length t)) as [Hi | Hi].
  - rewrite nth_calculate_harmonic by exact Hi.
    rewrite Rabs_mult.
    set (x := 2 * PI * frequency (params self) * nth i t 0 + phase (params self)).
    assert (Hs : Rabs (sin x) <= 1).
    { apply Rabs_le. pose proof (SIN_bound x) as B. lra. }
    pose proof (Rabs_pos (amplitude (params self))) as Ha.
    nra.
  - rewrite nth_overflow by (rewrite length_calculate_harmonic; exact Hi).
    rewrite Rabs_R0. apply Rabs_pos.
Qed.

(** The first sample, taken at time 0, is amplitude * sin(phase), whatever
    the frequency. *)
Lemma first_sample (self : State) :
  nth 0 (_calculate_harmonic self) 0
  = amplitude (params self) * sin (phase (params self)).
Proof.
  rewrite nth_calculate_harmonic by (rewrite length_t; lia).
  rewrite nth_t by lia. cbn [INR]. f_equal. f_equal. lra.
Qed.

(** ** Construction *)

(** Visibility of the two overlays follows [show_noise]; the clean line
    shows the harmonic and the noisy line the harmonic plus the noise. *)
Definition lines_agree (self : State) : Prop :=
  visible (line_noisy self) = show_noise (params self)
  /\ visible (line_clean self) = negb (show_noise (params self))
  /\ ydata (line_clean self) = harmonic self
  /\ ydata (line_noisy self) = np.add (harmonic self) (noise self).

(** X3.  The constructor returns wherever the generator stands.  It draws the
    noise once, 1000 samples for the default mean and variance; the first
    [_update] it runs recomputes neither array, filters the noisy signal at
    the default cutoff and requests the first redraw. *)
Theorem constructor_postcondition (pos : nat) :
  exists self,
    __init__ gauss butter_design filtfilt pos = Done self
    /\ params self = initial_params
    /\ harmonic self = startup_harmonic
    /\ (noise self, rng_pos self)
       = np.normal gauss pos 0 (sqrt (15 / 100)) 1000
    /\ (forall i, val (slider i self) = key i initial_params
                  /\ valinit (slider i self) = key i initial_params)
    /\ lines_agree self
    /\ ydata (line_filtered self)
       = lowpass butter_design filtfilt 2 (np.add (harmonic self) (noise self))
    /\ draw_requests self = 1%nat.
Proof.
  unfold __init__.
  set (s := _setup_widgets _).
  assert (Hsync : synced s) by reflexivity.
  destruct (synced_nothing_changed s Hsync) as (Hh & Hn).
  destruct (refresh_unchanged gauss s Hh Hn) as (R1 & R2 & R3).
  destruct (lines_refresh gauss s) as (L1 & L2 & _ & V1 & V2 & D).
  assert (Hv : 0 < val (slider_cutoff s) / nyq < 1) by apply default_cutoff_valid.
  rewrite (update_valid gauss butter_design filtfilt s Hv).
  exists (updated gauss butter_design filtfilt s). split; [reflexivity|].
  destruct (updated_fields gauss butter_design filtfilt s)
    as (Hp & Hha & Hno & Hr & Hln & Hlc & Hs).
  assert (P : params (updated gauss butter_design filtfilt s) = initial_params)
    by (rewrite Hp, params_refresh; reflexivity).
  split; [exact P|].
  split; [rewrite Hha, R1; reflexivity|].
  split.
  { rewrite Hno, Hr, R2, R3. subst s. cbn [noise rng_pos _setup_widgets _setup_plot
      with_slider with_line_filtered with_line_clean with_line_noisy with_noise].
    unfold _generate_noise. rewrite length_t. reflexivity. }
  split.
  { intro i. rewrite Hs, sliders_refresh. subst s. destruct i; split; reflexivity. }
  split.
  { unfold lines_agree. rewrite Hln, Hlc, P, Hha, Hno, V1, V2, L1, L2.
    repeat split. }
  split.
  - unfold updated. cbn. rewrite params_refresh. reflexivity.
  - unfold updated. cbn. rewrite D. reflexivity.
Qed.

(** ** What every reachable object satisfies *)

(** What survives a write to a slider. *)
Definition stable (self : State) : Prop :=
  harmonic_fresh self /\ resets_to_defaults self /\ shaped self
  /\ visible (line_noisy self) = show_noise (params self)
  /\ visible (line_clean self) = negb (show_noise (params self)).

Definition well_formed (self : State) : Prop :=
  consistent self /\ shaped self /\ lines_agree self.

Lemma well_formed_stable (self : State) : well_formed self -> stable self.
Proof.
  intros ((_ & Hf & Hd) & Hsh & (V1 & V2 & _)).
  exact (conj Hf (conj Hd (conj Hsh (conj V1 V2)))).
Qed.

Lemma with_slider_stable (i : slider_id) (v : R) (self : State) :
  stable self -> stable (with_slider i (set_val v (slider i self)) self).
Proof.
  intros (Hf & Hd & Hsh & V1 & V2).
  split; [exact Hf|]. split; [|exact (conj Hsh (conj V1 V2))].
  unfold resets_to_defaults in *. destruct i; exact Hd.
Qed.

Lemma update_well_formed (self : State) :
  stable self -> well_formed (final (_update gauss butter_design filtfilt self)).
Proof.
  intros (Hf & Hd & Hsh & V1 & V2).
  split; [apply update_consistent; assumption|].
  split; [apply update_shaped; exact Hsh|].
  destruct (final_update_fields gauss butter_design filtfilt self)
    as (Hp & _ & _ & _ & Hln & Hlc & _).
  destruct (lines_refresh gauss self) as (_ & _ & _ & W1 & W2 & _).
  destruct (update_lines gauss butter_design filtfilt self) as (D1 & D2).
  unfold lines_agree. rewrite Hln, Hlc, Hp, W1, W2, params_refresh.
  split; [exact V1|]. split; [exact V2|].
  rewrite <- Hlc, <- Hln. exact (conj D1 D2).
Qed.

Lemma toggle_well_formed (self : State) :
  well_formed self -> well_formed (_toggle_noise self).
Proof.
  intros (Hc & Hsh & (_ & _ & D1 & D2)).
  split; [apply toggle_consistent; exact Hc|]. split; [exact Hsh|].
  unfold lines_agree. cbn. auto.
Qed.

Lemma bind_preserves (P : State -> Prop) (o : outcome) (k : State -> outcome) :
  P (final o) -> (forall s, P s -> P (final (k s))) -> P (final (bind o k)).
Proof. destruct o as [s | e s]; cbn; auto. Qed.

Lemma slider_reset_well_formed (i : slider_id) (self : State) :
  well_formed self ->
  well_formed (final (slider_reset gauss butter_design filtfilt i self)).
Proof.
  intro H. unfold slider_reset.
  destruct (Rneb (val (slider i self)) (valinit (slider i self))); [|exact H].
  apply update_well_formed, with_slider_stable, well_formed_stable, H.
Qed.

Lemma reset_well_formed (self : State) :
  well_formed self -> well_formed (final (_reset gauss butter_design filtfilt self)).
Proof.
  intro H. unfold _reset.
  repeat (apply bind_preserves;
          [| clear self H; intros self H]);
    apply slider_reset_well_formed; exact H.
Qed.

(** The events the three callbacks answer to. *)
Inductive event : Type :=
| Slide (i : slider_id) (v : R)
| ToggleNoise
| Reset.

Definition handle (e : event) (self : State) : outcome :=
  match e with
  | Slide i v => on_changed gauss butter_design filtfilt i v self
  | ToggleNoise => Done (_toggle_noise self)
  | Reset => _reset gauss butter_design filtfilt self
  end.

(** The events are handled one after the other; a callback that raises
    ends there and the object goes on from where it stands. *)
Fixpoint run (events : list event) (self : State) : State :=
  match events with
  | [] => self
  | e :: rest => run rest (final (handle e self))
  end.

Lemma handle_well_formed (e : event) (self : State) :
  well_formed self -> well_formed (final (handle e self)).
Proof.
  intro H. destruct e as [i v | |]; cbn [handle final].
  - apply update_well_formed, with_slider_stable, well_formed_stable, H.
  - apply toggle_well_formed, H.
  - apply reset_well_formed, H.
Qed.

Lemma constructor_well_formed (pos : nat) :
  well_formed (final (__init__ gauss butter_design filtfilt pos)).
Proof.
  unfold __init__. apply update_well_formed.
  split; [reflexivity|]. split; [repeat split|].
  split; [|split; reflexivity].
  split.
  - apply length_calculate_harmonic.
  - apply (length_generate_noise gauss
             (with_harmonic (_calculate_harmonic (blank pos)) (blank pos))).
Qed.

(** X4.  After the constructor and any sequence of slider events (with any
    values), check-box clicks and resets, returned or raised:
    [self.params] holds the slider values, [self.harmonic] is the harmonic
    of [self.params], both arrays have 1000 samples, exactly one of the
    noisy and clean lines is visible as [show_noise] says, and the two lines
    carry the harmonic plus noise and the harmonic. *)
Theorem reachable_well_formed (pos : nat) (events : list event) :
  well_formed (run events (final (__init__ gauss butter_design filtfilt pos))).
Proof.
  generalize (constructor_well_formed pos).
  generalize (final (__init__ gauss butter_design filtfilt pos)).
  induction events as [| e rest IH]; intros s H; cbn [run].
  - exact H.
  - apply IH, handle_well_formed, H.
Qed.

(** ** Doing the same thing twice *)

(** X5.  Two clicks on the check box undo each other: where the visibility of
    the lines follows [show_noise], the object is back as it was, with two
    more redraw requests. *)
Theorem toggle_noise_twice (self : State) :
  visible (line_noisy self) = show_noise (params self) ->
  visible (line_clean self) = negb (show_noise (params self)) ->
  _toggle_noise (_toggle_noise self) = draw_idle (draw_idle self).
Proof.
  destruct self as [p h n sa sf sp sm sc sk [yn vn] [yc vc] lf r d].
  destruct p as [a f ph m c k sn]. cbn. intros V1 V2. subst vn vc.
  destruct sn; reflexivity.
Qed.

Lemma set_ydata_same (l : Line2D) : set_ydata (ydata l) l = l.
Proof. destruct l. reflexivity. Qed.

(** Where nothing is stale, the part of [_update] before the filter leaves
    the object as it is. *)
Lemma refresh_fixed (self : State) :
  synced self ->
  ydata (line_noisy self) = np.add (harmonic self) (noise self) ->
  ydata (line_clean self) = harmonic self ->
  refresh gauss self = self.
Proof.
  intros Hs L1 L2. destruct (synced_nothing_changed self Hs) as (Hh & Hn).
  unfold refresh, refresh_harmonic, refresh_noise. rewrite Hh, Hn.
  unfold synced in Hs. rewrite <- Hs.
  destruct self as [p h n sa sf sp sm sc sk ln lc lf r d].
  cbn in *. unfold with_line_clean, with_line_noisy, with_params. cbn.
  rewrite <- L1, <- L2, !set_ydata_same. reflexivity.
Qed.

(** X6.  A second [_update] with no slider moved in between recomputes the same
    filtered signal and changes nothing but the count of redraw requests. *)
Theorem update_twice (self : State) :
  0 < val (slider_cutoff self) / nyq < 1 ->
  exists self1,
    _update gauss butter_design filtfilt self = Done self1
    /\ _update gauss butter_design filtfilt self1 = Done (draw_idle self1).
Proof.
  intro Hv. exists (updated gauss butter_design filtfilt self).
  split; [apply update_valid; exact Hv|].
  set (s1 := updated gauss butter_design filtfilt self).
  assert (E1 : final (_update gauss butter_design filtfilt self) = s1)
    by (rewrite (update_valid _ _ _ self Hv); reflexivity).
  assert (Hs : synced s1) by (rewrite <- E1; apply update_synced).
  destruct (update_lines gauss butter_design filtfilt self) as (D1 & D2).
  rewrite E1 in D1, D2.
  assert (Hfix : refresh gauss s1 = s1) by (apply refresh_fixed; assumption).
  assert (Hc : val (slider_cutoff s1) = val (slider_cutoff self)).
  { destruct (updated_fields gauss butter_design filtfilt self)
      as (_ & _ & _ & _ & _ & _ & Hsl).
    pose proof (Hsl Cutoff) as K. rewrite sliders_refresh in K. cbn [slider] in K.
    fold s1 in K. rewrite K. reflexivity. }
  assert (Hv1 : 0 < val (slider_cutoff s1) / nyq < 1) by (rewrite Hc; exact Hv).
  rewrite (update_valid _ _ _ s1 Hv1). f_equal. unfold updated at 1.
  rewrite Hfix. reflexivity.
Qed.

(** X7.  A second reset finds every slider at its default: it runs no [_update]
    and leaves the object untouched. *)
Theorem reset_twice (self : State) :
  consistent self ->
  0 < val (slider_cutoff self) / nyq < 1 ->
  exists self',
    _reset gauss butter_design filtfilt self = Done self'
    /\ off_default self' = 0%nat
    /\ _reset gauss butter_design filtfilt self' = Done self'.
Proof.
  intros C Hv.
  destruct (reset_spec gauss butter_design filtfilt self C Hv)
    as (s & E & (_ & _ & Hd) & Hvals & _).
  assert (Hat : forall i, Rneb (val (slider i s)) (valinit (slider i s)) = false).
  { intro i. apply Rneb_false_iff.
    rewrite (valinit_defaults s i Hd). apply Hvals. }
  exists s. split; [exact E|]. split.
  - unfold off_default. cbn [filter]. rewrite !Hat. reflexivity.
  - unfold _reset, slider_reset.
    repeat (rewrite Hat; cbn [bind]). reflexivity.
Qed.

(** ** One slider at a time *)

Definition feeds_harmonic (i : slider_id) : bool :=
  match i with Amp | Freq | Phase => true | _ => false end.

Definition feeds_noise (i : slider_id) : bool :=
  match i with NoiseMean | NoiseCov => true | _ => false end.

(** On a synced object with one slider written, the tests of [_update]
    see that slider only. *)
Lemma tests_after_write (i : slider_id) (v : R) (self : State) :
  synced self ->
  let s := with_slider i (set_val v (slider i self)) self in
  harmonic_changed (read_sliders s) s
  = feeds_harmonic i && Rneb v (key i (params self))
  /\ noise_changed (read_sliders s) s
     = feeds_noise i && Rneb v (key i (params self)).
Proof.
  intros Hs s. destruct (synced_fields self Hs) as (F1 & F2 & F3 & F4 & F5 & F6).
  unfold harmonic_changed, noise_changed. subst s.
  destruct i; cbn; rewrite ?F1, ?F2, ?F3, ?F4, ?F5, ?F6, ?Rneb_refl; cbn;
    rewrite ?orb_false_r; split; reflexivity.
Qed.

(** X8.  Moving the amplitude, frequency or phase slider never draws the noise
    again: [self.noise] and the generator are untouched, and the harmonic
    is the one of the new value. *)
Theorem harmonic_slider_keeps_noise (i : slider_id) (v : R) (self : State) :
  consistent self ->
  feeds_harmonic i = true ->
  let self' := final (on_changed gauss butter_design filtfilt i v self) in
  noise self' = noise self
  /\ rng_pos self' = rng_pos self
  /\ key i (params self') = v
  /\ harmonic self' = _calculate_harmonic self'.
Proof.
  intros C Hi self'.
  destruct (on_changed_spec gauss butter_design filtfilt i v self C)
    as ((_ & Hf & _) & K & _).
  fold self' in Hf, K.
  destruct C as (Hs & _ & _).
  destruct (tests_after_write i v self Hs) as (Th & Tn).
  rewrite Hi in Th. destruct i; try discriminate; cbn [feeds_noise andb] in Tn.
  all: set (s := with_slider _ _ self) in *;
    destruct (final_update_fields gauss butter_design filtfilt s)
      as (_ & _ & Hn & Hr & _);
    assert (R : rng_pos (refresh gauss s) = rng_pos self)
      by (rewrite rng_pos_refresh, Tn;
          destruct (harmonic_changed (read_sliders s) s); reflexivity);
    (split; [unfold self', on_changed; fold s; rewrite Hn;
             apply (noise_refresh_kept gauss s); exact R|]);
    (split; [unfold self', on_changed; fold s; rewrite Hr; exact R|]);
    split; [exact K | exact Hf].
Qed.

(** X9.  Moving the noise-mean or noise-variance slider to a new value draws
    1000 fresh samples for the new mean and standard deviation and leaves
    the harmonic as it is. *)
Theorem noise_slider_redraws (i : slider_id) (v : R) (self : State) :
  consistent self ->
  feeds_noise i = true ->
  v <> key i (params self) ->
  let self' := final (on_changed gauss butter_design filtfilt i v self) in
  harmonic self' = harmonic self
  /\ key i (params self') = v
  /\ (noise self', rng_pos self')
     = np.normal gauss (rng_pos self) (noise_mean (params self'))
         (sqrt (noise_covariance (params self'))) 1000.
Proof.
  intros C Hi Hv self'.
  destruct (on_changed_spec gauss butter_design filtfilt i v self C)
    as (_ & K & _).
  fold self' in K.
  destruct C as (Hs & _ & _).
  destruct (tests_after_write i v self Hs) as (Th & Tn).
  rewrite Hi, (Rneb_neq _ _ Hv) in Tn. cbn [andb] in Tn.
  assert (Th' : harmonic_changed
                  (read_sliders (with_slider i (set_val v (slider i self)) self))
                  (with_slider i (set_val v (slider i self)) self) = false)
    by (rewrite Th; destruct i; try discriminate; reflexivity).
  clear Th. set (s := with_slider i (set_val v (slider i self)) self) in *.
  destruct (final_update_fields gauss butter_design filtfilt s)
    as (Hp & Hh & Hn & Hr & _).
  pose proof (noise_refresh gauss s) as N. rewrite Th', Tn in N.
  unfold self', on_changed. fold s.
  split; [rewrite Hh, harmonic_refresh, Th'; reflexivity|].
  split; [exact K|].
  rewrite Hn, Hr, N, Hp, params_refresh. unfold _generate_noise.
  rewrite length_t. reflexivity.
Qed.

(** X10.  An event that writes to a slider the value it already holds recomputes
    neither array. *)
Theorem same_value_recomputes_nothing (i : slider_id) (self : State) :
  consistent self ->
  let self' := final (on_changed gauss butter_design filtfilt i
                        (val (slider i self)) self) in
  harmonic self' = harmonic self
  /\ noise self' = noise self
  /\ rng_pos self' = rng_pos self
  /\ params self' = params self.
Proof.
  intros (Hs & _ & _) self'.
  destruct (tests_after_write i (val (slider i self)) self Hs) as (Th & Tn).
  assert (E : Rneb (val (slider i self)) (key i (params self)) = false)
    by (rewrite (synced_key self i Hs); apply Rneb_refl).
  rewrite E, andb_false_r in Th, Tn.
  set (s := with_slider i (set_val (val (slider i self)) (slider i self)) self) in *.
  destruct (refresh_unchanged gauss s Th Tn) as (R1 & R2 & R3).
  destruct (final_update_fields gauss butter_design filtfilt s)
    as (Hp & Hh & Hn & Hr & _).
  unfold self', on_changed. fold s.
  rewrite Hp, Hh, Hn, Hr, R1, R2, R3, params_refresh.
  split; [reflexivity|]. split; [reflexivity|]. split; [reflexivity|].
  transitivity (params_update (params self) (read_sliders self));
    [subst s; destruct i; reflexivity | symmetry; exact Hs].
Qed.

(** ** A cutoff the design refuses *)

Lemma cutoff_event_keeps_arrays (c : R) (self : State) :
  synced self ->
  let self' := final (on_changed gauss butter_design filtfilt Cutoff c self) in
  harmonic self' = harmonic self
  /\ noise self' = noise self
  /\ rng_pos self' = rng_pos self.
Proof.
  intros Hs self'.
  destruct (tests_after_write Cutoff c self Hs) as (Th & Tn).
  cbn [feeds_harmonic feeds_noise andb] in Th, Tn.
  set (s := with_slider Cutoff (set_val c (slider Cutoff self)) self) in *.
  destruct (refresh_unchanged gauss s Th Tn) as (R1 & R2 & R3).
  destruct (final_update_fields gauss butter_design filtfilt s)
    as (_ & Hh & Hn & Hr & _).
  unfold self', on_changed. fold s. rewrite Hh, Hn, Hr, R1, R2, R3.
  repeat split.
Qed.

(** X11.  Once the cutoff slider holds a value the design refuses, every event
    on another slider raises as well and the filtered line stays as it was
    before the refusal; moving the cutoff slider to an accepted value makes
    [_update] return again, with the filtered line recomputed from the
    signals, which the detour has left untouched. *)
Theorem refused_cutoff_until_moved_back (c c' : R) (self : State) :
  consistent self ->
  ~ (0 < c / nyq < 1) ->
  0 < c' / nyq < 1 ->
  let self1 := final (on_changed gauss butter_design filtfilt Cutoff c self) in
  (forall i v, i <> Cutoff ->
     exists self',
       on_changed gauss butter_design filtfilt i v self1 = Raised ValueError self'
       /\ line_filtered self' = line_filtered self)
  /\ exists self2,
       on_changed gauss butter_design filtfilt Cutoff c' self1 = Done self2
       /\ harmonic self2 = harmonic self
       /\ noise self2 = noise self
       /\ rng_pos self2 = rng_pos self
       /\ ydata (line_filtered self2)
          = lowpass butter_design filtfilt c'
              (np.add (harmonic self) (noise self)).
Proof.
  intros C Hbad Hok self1.
  destruct (on_changed_spec gauss butter_design filtfilt Cutoff c self C)
    as (C1 & _ & _ & _ & V1 & _ & B1).
  cbn zeta in V1, B1. fold self1 in C1, V1, B1.
  destruct (B1 Hbad) as (_ & L1).
  destruct C as (Hs & _). 
  destruct (cutoff_event_keeps_arrays c self Hs) as (A1 & A2 & A3).
  fold self1 in A1, A2, A3.
  split.
  - intros i v Hi.
    destruct (on_changed_spec gauss butter_design filtfilt i v self1 C1)
      as (_ & _ & _ & _ & _ & _ & B2).
    cbn zeta in B2.
    assert (Hcut : match i with Cutoff => v | _ => val (slider_cutoff self1) end = c)
      by (destruct i; try exact V1; contradiction).
    rewrite Hcut in B2. destruct (B2 Hbad) as (E2 & L2).
    eexists. split; [exact E2|]. rewrite L2. exact L1.
  - destruct C1 as (Hs1 & _).
    destruct (cutoff_event_keeps_arrays c' self1 Hs1) as (A1' & A2' & A3').
    set (s := with_slider Cutoff (set_val c' (slider Cutoff self1)) self1) in *.
    assert (Hv : 0 < val (slider_cutoff s) / nyq < 1) by exact Hok.
    unfold on_changed in *. fold s in A1', A2', A3' |- *.
    rewrite (update_valid gauss butter_design filtfilt s Hv) in *.
    cbn [final] in A1', A2', A3'.
    exists (updated gauss butter_design filtfilt s). split; [reflexivity|].
    split; [rewrite A1'; exact A1|]. split; [rewrite A2'; exact A2|].
    split; [rewrite A3'; exact A3|].
    destruct (updated_fields gauss butter_design filtfilt s) as (_ & Hh & Hn & _).
    rewrite Hh in A1'. rewrite Hn in A2'.
    unfold updated. cbn. rewrite params_refresh. unfold noisy_signal.
    rewrite A1', A2', A1, A2. reflexivity.
Qed.

(** ** How [_update] finds the object *)

Lemma run_well_formed (events : list event) (self : State) :
  well_formed self -> well_formed (run events self).
Proof.
  revert self. induction events as [| e rest IH]; intros self H; cbn [run].
  - exact H.
  - apply IH, handle_well_formed, H.
Qed.

(** Whatever happened before, a slider event hands [_update] an object
    with at most one slider off [self.params]. *)
Lemma reachable_one_slider_moved (pos : nat) (events : list event)
    (i : slider_id) (v : R) :
  let self := run events (final (__init__ gauss butter_design filtfilt pos)) in
  one_slider_moved (with_slider i (set_val v (slider i self)) self).
Proof.
  intro self. apply synced_one_slider_moved.
  destruct (run_well_formed events _ (constructor_well_formed pos))
    as ((Hs & _) & _).
  exact Hs.
Qed.

End VisualizerBehaviour.

(** ** Instances *)

Lemma toggle_noise_twice_witness :
  visible (line_noisy (_setup_plot (blank 0)))
  = show_noise (params (_setup_plot (blank 0)))
  /\ _toggle_noise (_toggle_noise (_setup_plot (blank 0)))
     = draw_idle (draw_idle (_setup_plot (blank 0))).
Proof.
  split; [reflexivity|].
  exact (toggle_noise_twice (_setup_plot (blank 0)) eq_refl eq_refl).
Defined.

Lemma startup_cutoff_valid : 0 < val (slider_cutoff startup) / nyq < 1.
Proof. rewrite startup_cutoff. exact cutoff_2_valid. Qed.

Lemma startup_consistent : consistent startup.
Proof. destruct startup_spec as (_ & _ & _ & _ & C & _). exact C. Qed.

Lemma update_twice_witness :
  0 < val (slider_cutoff startup) / nyq < 1
  /\ exists self1,
       sample_update startup = Done self1
       /\ sample_update self1 = Done (draw_idle self1).
Proof.
  split; [exact startup_cutoff_valid|].
  exact (update_twice sample_gauss sample_design sample_filtfilt startup
           startup_cutoff_valid).
Defined.

Lemma reset_twice_witness :
  consistent startup
  /\ exists self',
       sample_reset startup = Done self'
       /\ off_default self' = 0%nat
       /\ sample_reset self' = Done self'.
Proof.
  split; [exact startup_consistent|].
  exact (reset_twice sample_gauss sample_design sample_filtfilt startup
           startup_consistent startup_cutoff_valid).
Defined.

Lemma harmonic_slider_keeps_noise_witness :
  feeds_harmonic Phase = true
  /\ noise (final (sample_on_changed Phase 1 startup)) = noise startup
  /\ rng_pos (final (sample_on_changed Phase 1 startup)) = rng_pos startup.
Proof.
  split; [reflexivity|].
  destruct (harmonic_slider_keeps_noise sample_gauss sample_design sample_filtfilt
              Phase 1 startup startup_consistent eq_refl) as (H1 & H2 & _).
  split; assumption.
Defined.

Lemma startup_noise_mean : key NoiseMean (params startup) = 0.
Proof. destruct startup_spec as (_ & P & _). rewrite P. reflexivity. Qed.

Lemma noise_slider_redraws_witness :
  3 / 10 <> key NoiseMean (params startup)
  /\ harmonic (final (sample_on_changed NoiseMean (3 / 10) startup))
     = harmonic startup
  /\ rng_pos (final (sample_on_changed NoiseMean (3 / 10) startup))
     = (rng_pos startup + 1000)%nat.
Proof.
  assert (H : 3 / 10 <> key NoiseMean (params startup))
    by (rewrite startup_noise_mean; lra).
  split; [exact H|].
  destruct (noise_slider_redraws sample_gauss sample_design sample_filtfilt
              NoiseMean (3 / 10) startup startup_consistent eq_refl H)
    as (H1 & _ & H3).
  split; [exact H1|]. exact (f_equal snd H3).
Defined.

Lemma same_value_recomputes_nothing_witness :
  consistent startup
  /\ noise (final (sample_on_changed Freq (val (slider Freq startup)) startup))
     = noise startup
  /\ params (final (sample_on_changed Freq (val (slider Freq startup)) startup))
     = params startup.
Proof.
  split; [exact startup_consistent|].
  destruct (same_value_recomputes_nothing sample_gauss sample_design
              sample_filtfilt Freq startup startup_consistent)
    as (_ & H2 & _ & H4).
  split; assumption.
Defined.

Lemma refused_cutoff_until_moved_back_witness :
  ~ (0 < 60 / nyq < 1) /\ 0 < 5 / nyq < 1
  /\ exists self2,
       sample_on_changed Cutoff 5 (final (sample_on_changed Cutoff 60 startup))
       = Done self2
       /\ harmonic self2 = harmonic startup
       /\ noise self2 = noise startup.
Proof.
  split; [exact cutoff_60_invalid|]. split; [exact cutoff_5_valid|].
  destruct (refused_cutoff_until_moved_back sample_gauss sample_design
              sample_filtfilt 60 5 startup startup_consistent
              cutoff_60_invalid cutoff_5_valid) as (_ & s2 & E & H1 & H2 & _).
  exists s2. split; [exact E|]. split; assumption.
Defined.

(** * lab_3/data_cleaning.py

    Text is a list of characters (ASCII text is meant); a data frame is the
    list of its rows, in order, each under its index label where the code
    drops by label, and a numeric cell is a real number or missing.  [pandas.read_csv], the casts of [astype] and the file system
    are external and taken as parameters. *)

From Stdlib Require Import Ascii ZArith.
From Stdlib Require String.
Import String.StringSyntax.
Delimit Scope string_scope with string.

Module data_cleaning.

Definition str : Type := list ascii.

(** A Python literal as text. *)
Definition lit (s : String.string) : str := String.list_ascii_of_string s.

Definition newline : ascii := "010"%char.

(** [closes s]: in [s], a [>] comes before any line break.  This is when
    the pattern [<.*?>] matches at a [<] that [s] follows: the dot matches
    any character but the line break, and the lazy star stops at the first
    [>]. *)
Fixpoint closes (s : str) : bool :=
  match s with
  | [] => false
  | c :: rest =>
      if Ascii.eqb c ">" then true
      else if Ascii.eqb c newline then false
      else closes rest
  end.

(** [re.sub('<.*?>', '', text)], scanning from the left: outside a match
    ([in_tag = false]) a [<] that closes starts a match and everything else
    is copied; inside a match the characters are dropped through the first
    [>]. *)
Fixpoint sub_tags (in_tag : bool) (text : str) : str :=
  match text with
  | [] => []
  | c :: rest =>
      if in_tag then
        if Ascii.eqb c ">" then sub_tags false rest else sub_tags true rest
      else if Ascii.eqb c "<" && closes rest then sub_tags true rest
      else c :: sub_tags false rest
  end.

Definition remove_html_tags (text : str) : str := sub_tags false text.

(** Somewhere in [s] the pattern matches. *)
Fixpoint has_tag (s : str) : bool :=
  match s with
  | [] => false
  | c :: rest => (Ascii.eqb c "<" && closes rest) || has_tag rest
  end.

Example remove_html_tags_year :
  remove_html_tags (lit "<tt><pre>1982"%string) = lit "1982"%string.
Proof. reflexivity. Qed.

Example remove_html_tags_unclosed :
  remove_html_tags (lit "a < b"%string) = lit "a < b"%string.
Proof. reflexivity. Qed.

Lemma closes_sub_tags (s : str) :
  closes s = false -> closes (sub_tags false s) = false.
Proof.
  induction s as [| c rest IH]; intro H; [reflexivity|].
  cbn [closes] in H. cbn [sub_tags].
  destruct (Ascii.eqb c ">") eqn:Egt; [discriminate|].
  destruct (Ascii.eqb c newline) eqn:Enl.
  - destruct (Ascii.eqb c "<" && closes rest) eqn:E.
    + apply andb_true_iff in E. destruct E as (E & _).
      apply Ascii.eqb_eq in E. apply Ascii.eqb_eq in Enl. subst c. discriminate.
    + cbn [closes]. rewrite Egt, Enl. reflexivity.
  - rewrite H, andb_false_r. cbn [closes]. rewrite Egt, Enl. apply IH, H.
Qed.

Lemma no_tag_after (in_tag : bool) (s : str) :
  has_tag (sub_tags in_tag s) = false.
Proof.
  revert in_tag. induction s as [| c rest IH]; intro in_tag;
    [destruct in_tag; reflexivity|].
  cbn [sub_tags]. destruct in_tag.
  - destruct (Ascii.eqb c ">"); apply IH.
  - destruct (Ascii.eqb c "<" && closes rest) eqn:E; [apply IH|].
    cbn [has_tag]. rewrite IH, orb_false_r.
    apply andb_false_iff in E. destruct E as [E | E].
    + rewrite E. reflexivity.
    + rewrite (closes_sub_tags rest E). apply andb_false_r.
Qed.

(** X12.  Nothing the pattern matches is left in the result. *)
Theorem remove_html_tags_complete (text : str) :
  has_tag (remove_html_tags text) = false.
Proof.
  unfold remove_html_tags.
  enough (G : forall in_tag, has_tag (sub_tags in_tag text) = false) by apply G.
  induction text as [| c rest IH]; intro in_tag; [destruct in_tag; reflexivity|].
  cbn [sub_tags]. destruct in_tag.
  - destruct (Ascii.eqb c ">"); apply IH.
  - destruct (Ascii.eqb c "<" && closes rest) eqn:E; [apply IH|].
    cbn [has_tag]. rewrite IH, orb_false_r.
    apply andb_false_iff in E. destruct E as [E | E].
    + rewrite E. reflexivity.
    + rewrite (closes_sub_tags rest E). apply andb_false_r.
Qed.

Lemma sub_tags_fixed (text : str) :
  has_tag text = false -> sub_tags false text = text.
Proof.
  induction text as [| c rest IH]; intro H; [reflexivity|].
  cbn [has_tag] in H. apply orb_false_iff in H. destruct H as (H1 & H2).
  cbn [sub_tags]. rewrite H1, (IH H2). reflexivity.
Qed.

(** X13.  Text in which the pattern matches nowhere is returned as it is: no
    [<] at all, a [<] never closed, or one closed only on a later line. *)
Theorem remove_html_tags_without_tag (text : str) :
  has_tag text = false -> remove_html_tags text = text.
Proof.
  unfold remove_html_tags.
  induction text as [| c rest IH]; intro H; [reflexivity|].
  cbn [has_tag] in H. apply orb_false_iff in H. destruct H as (Hc & Hrest).
  cbn [sub_tags]. rewrite Hc. f_equal. apply IH, Hrest.
Qed.

(** X14.  Cleaning twice is cleaning once. *)
Theorem remove_html_tags_idempotent (text : str) :
  remove_html_tags (remove_html_tags text) = remove_html_tags text.
Proof.
  unfold remove_html_tags. apply sub_tags_fixed, no_tag_after.
Qed.

Lemma closes_body (body rest : str) :
  ~ In ">"%char body -> ~ In newline body ->
  closes (body ++ ">"%char :: rest) = true.
Proof.
  induction body as [| c body IH]; intros H1 H2; [reflexivity|].
  cbn [app closes].
  destruct (Ascii.eqb c ">") eqn:E1; [reflexivity|].
  destruct (Ascii.eqb c newline) eqn:E2.
  - apply Ascii.eqb_eq in E2. exfalso. apply H2. left. exact E2.
  - apply IH; intro H; [apply H1 | apply H2]; right; exact H.
Qed.

Lemma sub_tags_body (body rest : str) :
  ~ In ">"%char body ->
  sub_tags true (body ++ ">"%char :: rest) = sub_tags false rest.
Proof.
  induction body as [| c body IH]; intro H; [reflexivity|].
  cbn [app sub_tags].
  destruct (Ascii.eqb c ">") eqn:E.
  - apply Ascii.eqb_eq in E. exfalso. apply H. left. exact E.
  - apply IH. intro H'. apply H. right. exact H'.
Qed.

(** X15.  A tag written on one line is deleted whole and the text before it is
    kept: for [before] without [<] and [body] without [>] and without line
    break, [before <body> after] is cleaned to [before] followed by the
    cleaning of [after]. *)
Theorem remove_html_tags_one_tag (before body after : str) :
  ~ In "<"%char before ->
  ~ In ">"%char body ->
  ~ In newline body ->
  remove_html_tags (before ++ "<"%char :: body ++ ">"%char :: after)
  = before ++ remove_html_tags after.
Proof.
  unfold remove_html_tags. intros Hb H1 H2.
  induction before as [| c before IH].
  - cbn [app sub_tags]. rewrite (closes_body body after H1 H2).
    cbn. apply sub_tags_body, H1.
  - cbn [app sub_tags].
    destruct (Ascii.eqb c "<") eqn:E.
    + apply Ascii.eqb_eq in E. exfalso. apply Hb. left. exact E.
    + cbn [andb]. f_equal. apply IH. intro H. apply Hb. right. exact H.
Qed.


(** ** Frames *)

(** A numeric cell: a number, or missing. *)
Definition cell : Type := option R.

(** One cell of [column == v]: a missing value equals nothing. *)
Definition cell_eqb (c : cell) (v : R) : bool :=
  match c with
  | Some x => negb (Rneb x v)
  | None => false
  end.

(** A row of the frame [read_csv_file] returns: columns Year, Week, SMN,
    SMT, VCI, TCI, VHI; the year is still text. *)
Record CsvRow : Type := mkCsvRow {
  csv_Year : str;
  csv_Week : cell;
  csv_SMN : cell;
  csv_SMT : cell;
  csv_VCI : cell;
  csv_TCI : cell;
  csv_VHI : cell
}.

(** A row of the frame [read_data] returns. *)
Record Row : Type := mkRow {
  PROVINCE_ID : Z;
  Year : Z;
  Week : Z;
  SMN : cell;
  SMT : cell;
  VCI : cell;
  TCI : cell;
  VHI : cell
}.

(** What [pd.read_csv(filepath, header=1, names=headers)] does: it returns
    the rows, each under its index label (the row number, or what the
    leading columns hold when the file has more columns than names), the
    eighth column (named empty) beside the seven others and the year as the
    text of its cell, or it raises. *)
Inductive read_csv_result (label : Type) : Type :=
| Parsed (rows : list (label * (CsvRow * cell)))
| ParserError
| OtherError.

Arguments Parsed {label} rows.
Arguments ParserError {label}.
Arguments OtherError {label}.

(** ** Strings *)

(** [s.split(sep)] for a separator of one character. *)
Fixpoint split (sep : ascii) (s : str) : list str :=
  match s with
  | [] => [[]]
  | c :: rest =>
      if Ascii.eqb c sep then [] :: split sep rest
      else match split sep rest with
           | w :: ws => (c :: w) :: ws
           | [] => [[c]]
           end
  end.

Definition is_digit (c : ascii) : bool :=
  (48 <=? nat_of_ascii c)%nat && (nat_of_ascii c <=? 57)%nat.

(** [s.isdigit()]: at least one character, all of them digits. *)
Definition isdigit (s : str) : bool :=
  match s with
  | [] => false
  | _ => forallb is_digit s
  end.

(** [int(s)] for a string of digits. *)
Definition int (s : str) : Z :=
  fold_left (fun n c => (10 * n + (Z.of_nat (nat_of_ascii c) - 48))%Z) s 0%Z.

Fixpoint startswith (prefix s : str) : bool :=
  match prefix, s with
  | [], _ => true
  | p :: prefix', c :: s' => Ascii.eqb p c && startswith prefix' s'
  | _ :: _, [] => false
  end.

(** [s.endswith(suffix)]. *)
Definition endswith (suffix s : str) : bool :=
  startswith (rev suffix) (rev s).

Example split_filename :
  split "_" (lit "vhi_id_16_2025.csv"%string)
  = [lit "vhi"%string; lit "id"%string; lit "16"%string; lit "2025.csv"%string].
Proof. reflexivity. Qed.

Example split_empty : split "_" [] = [[]].
Proof. reflexivity. Qed.

Example int_leading_zero : int (lit "012"%string) = 12%Z.
Proof. reflexivity. Qed.

(** ** Rows *)

Definition Row_eq_dec (x y : Row) : {x = y} + {x <> y}.
Proof.
  assert (Hc : forall a b : cell, {a = b} + {a <> b}).
  { intros [a|] [b|]; try (right; discriminate); [|left; reflexivity].
    destruct (Req_dec_T a b) as [E | N]; [left; f_equal; exact E|].
    right. intro H. injection H as H. contradiction. }
  destruct x as [p1 y1 w1 a1 b1 c1 d1 e1], y as [p2 y2 w2 a2 b2 c2 d2 e2].
  destruct (Z.eq_dec p1 p2); [|right; congruence].
  destruct (Z.eq_dec y1 y2); [|right; congruence].
  destruct (Z.eq_dec w1 w2); [|right; congruence].
  destruct (Hc a1 a2); [|right; congruence].
  destruct (Hc b1 b2); [|right; congruence].
  destruct (Hc c1 c2); [|right; congruence].
  destruct (Hc d1 d2); [|right; congruence].
  destruct (Hc e1 e2); [|right; congruence].
  left. congruence.
Defined.

(** [df.drop_duplicates()]: of equal rows the first is kept. *)
Fixpoint drop_duplicates_from (seen df : list Row) : list Row :=
  match df with
  | [] => []
  | r :: rest =>
      if in_dec Row_eq_dec r seen then drop_duplicates_from seen rest
      else r :: drop_duplicates_from (r :: seen) rest
  end.

Definition drop_duplicates (df : list Row) : list Row :=
  drop_duplicates_from [] df.

(** A cast applied to a column: it raises if it raises on a cell. *)
Fixpoint cast_rows (cast : CsvRow -> option Row) (df : list CsvRow)
  : option (list Row) :=
  match df with
  | [] => Some []
  | r :: rest =>
      match cast r, cast_rows cast rest with
      | Some r', Some rest' => Some (r' :: rest')
      | _, _ => None
      end
  end.

Fixpoint filter_map {A B : Type} (f : A -> option B) (l : list A) : list B :=
  match l with
  | [] => []
  | x :: rest =>
      match f x with
      | Some y => y :: filter_map f rest
      | None => filter_map f rest
      end
  end.

(** ** Facts on the helpers *)

Lemma In_removelast {A : Type} (x : A) (l : list A) :
  In x (removelast l) -> In x l.
Proof.
  induction l as [| a l IH]; [intros []|].
  cbn [removelast]. destruct l as [| b l]; [intros []|].
  intros [H | H]; [left; exact H | right; apply IH, H].
Qed.

Lemma length_removelast {A : Type} (l : list A) :
  l <> [] -> S (length (removelast l)) = length l.
Proof.
  induction l as [| a l IH]; [congruence|]. intros _.
  cbn [removelast]. destruct l as [| b l]; [reflexivity|].
  cbn [length]. f_equal. apply IH. discriminate.
Qed.

Lemma cast_rows_In (cast : CsvRow -> option Row) (df : list CsvRow) (out : list Row) :
  cast_rows cast df = Some out ->
  forall r', In r' out -> exists r, In r df /\ cast r = Some r'.
Proof.
  revert out. induction df as [| r rest IH]; intros out H r' Hin.
  - injection H as <-. destruct Hin.
  - cbn [cast_rows] in H.
    destruct (cast r) as [x|] eqn:E; [|discriminate].
    destruct (cast_rows cast rest) as [xs|]; [|discriminate].
    injection H as <-. destruct Hin as [<- | Hin].
    + exists r. split; [left; reflexivity | exact E].
    + destruct (IH xs eq_refl r' Hin) as (r0 & H0 & E0).
      exists r0. split; [right; exact H0 | exact E0].
Qed.

Lemma filter_map_In {A B : Type} (f : A -> option B) (l : list A) (y : B) :
  In y (filter_map f l) <-> exists x, In x l /\ f x = Some y.
Proof.
  induction l as [| a l IH]; cbn [filter_map].
  - split; [intros [] | intros (x & [] & _)].
  - destruct (f a) as [b|] eqn:E.
    + split.
      * intros [<- | H]; [exists a; split; [left; reflexivity | exact E]|].
        apply IH in H. destruct H as (x & Hx & Ex).
        exists x. split; [right; exact Hx | exact Ex].
      * intros (x & [<- | Hx] & Ex).
        -- left. congruence.
        -- right. apply IH. exists x. split; assumption.
    + rewrite IH. split.
      * intros (x & Hx & Ex). exists x. split; [right; exact Hx | exact Ex].
      * intros (x & [<- | Hx] & Ex); [congruence|].
        exists x. split; assumption.
Qed.


Lemma drop_duplicates_from_spec (seen df : list Row) :
  NoDup (drop_duplicates_from seen df)
  /\ forall r, In r (drop_duplicates_from seen df) <-> In r df /\ ~ In r seen.
Proof.
  revert seen. induction df as [| a rest IH]; intro seen; cbn [drop_duplicates_from].
  - split; [constructor|]. intro r. split; [intros [] | intros ([] & _)].
  - destruct (in_dec Row_eq_dec a seen) as [Hin | Hnot].
    + destruct (IH seen) as (N & I). split; [exact N|].
      intro r. rewrite I. split.
      * intros (H1 & H2). split; [right; exact H1 | exact H2].
      * intros ([<- | H1] & H2); [contradiction|]. split; assumption.
    + destruct (IH (a :: seen)) as (N & I). split.
      * constructor; [|exact N]. rewrite I. intros (_ & H). apply H. left. reflexivity.
      * intro r. cbn [In]. rewrite I. cbn [In]. split.
        -- intros [<- | (H1 & H2)]; [split; [left; reflexivity | exact Hnot]|].
           split; [right; exact H1 | intro H; apply H2; right; exact H].
        -- intros ([<- | H1] & H2); [left; reflexivity|].
           destruct (Row_eq_dec a r) as [<- | Hne]; [left; reflexivity|].
           right. split; [exact H1|]. intros [H | H]; contradiction.
Qed.

Lemma length_split (sep : ascii) (s : str) :
  length (split sep s) = S (count_occ ascii_dec s sep).
Proof.
  induction s as [| c rest IH]; [reflexivity|].
  cbn [split count_occ].
  destruct (ascii_dec c sep) as [E | N].
  - subst c. rewrite Ascii.eqb_refl. cbn [length]. f_equal. exact IH.
  - apply Ascii.eqb_neq in N. rewrite N.
    destruct (split sep rest) as [| w ws]; [discriminate|]. exact IH.
Qed.

(** The last field ends as the string does, when the string does not end
    with the separator. *)
Lemma last_field_last (sep : ascii) (s : str) (d : ascii) :
  s <> [] -> last s d <> sep ->
  last (split sep s) [] <> [] /\ last (last (split sep s) []) d = last s d.
Proof.
  induction s as [| c rest IH]; [congruence|]. intros _ Hl.
  destruct rest as [| c' rest'].
  - cbn in Hl. cbn [split]. apply Ascii.eqb_neq in Hl. rewrite Hl.
    cbn. split; [discriminate | reflexivity].
  - assert (Hl' : last (c' :: rest') d <> sep) by exact Hl.
    destruct (IH ltac:(discriminate) Hl') as (H1 & H2).
    change (last (c :: c' :: rest') d) with (last (c' :: rest') d).
    remember (c' :: rest') as rest eqn:Erest.
    cbn [split]. destruct (Ascii.eqb c sep).
    + destruct (split sep rest) as [| w ws] eqn:Es.
      * pose proof (length_split sep rest) as L. rewrite Es in L. discriminate.
      * cbn [last]. cbn [last] in H1, H2. split; assumption.
    + destruct (split sep rest) as [| w ws] eqn:Es.
      * pose proof (length_split sep rest) as L. rewrite Es in L. discriminate.
      * destruct ws as [| w' ws'].
        -- cbn [last] in H1, H2 |- *. split; [discriminate|].
           destruct w as [| x w]; [congruence|]. exact H2.
        -- cbn [last] in H1, H2 |- *. split; assumption.
Qed.

Lemma isdigit_last (s : str) (d : ascii) :
  isdigit s = true -> is_digit (last s d) = true.
Proof.
  unfold isdigit. destruct s as [| c rest]; [discriminate|].
  intro H. rewrite forallb_forall in H. apply H.
  clear H. revert c. induction rest as [| c' rest IH]; intro c.
  - left. reflexivity.
  - right. change (last (c :: c' :: rest) d) with (last (c' :: rest) d). apply IH.
Qed.

Lemma endswith_last (c : ascii) (suffix s : str) (d : ascii) :
  endswith (suffix ++ [c]) s = true -> s <> [] /\ last s d = c.
Proof.
  unfold endswith. rewrite rev_app_distr. cbn [rev app].
  destruct s as [| a s'] using rev_ind; [discriminate|].
  rewrite rev_app_distr. cbn [rev app startswith]. intro H.
  apply andb_true_iff in H. destruct H as (H & _). apply Ascii.eqb_eq in H.
  split; [destruct s'; discriminate|]. rewrite last_last. symmetry. exact H.
Qed.

Section Reading.

(** The index labels of a frame, which can be compared. *)
Variable label : Type.
Variable label_eq_dec : forall a b : label, {a = b} + {a <> b}.
Variable pd_read_csv : str -> read_csv_result label.
(** [os.path.exists], [os.listdir], [os.path.join]. *)
Variable path_exists : str -> bool.
Variable listdir : str -> list str.
Variable path_join : str -> str -> str.
(** One cell of [df["Year"].astype(int)] and of [df["Week"].astype(int)]:
    the integer, or nothing when the cast raises. *)
Variable year_astype_int : str -> option Z.
Variable week_astype_int : cell -> option Z.

(** The mask of the rows [read_csv_file] drops. *)
Definition minus_one (r : CsvRow) : bool :=
  cell_eqb (csv_VHI r) (-1) || cell_eqb (csv_TCI r) (-1) || cell_eqb (csv_VCI r) (-1).

(** The converter of the Year column. *)
Definition convert_year (r : CsvRow) : CsvRow :=
  mkCsvRow (remove_html_tags (csv_Year r)) (csv_Week r) (csv_SMN r) (csv_SMT r)
    (csv_VCI r) (csv_TCI r) (csv_VHI r).

(** [df.drop(labels)]: every row under one of the labels goes. *)
Definition drop_labels {A : Type} (labels : list label) (df : list (label * A))
  : list (label * A) :=
  filter (fun r => if in_dec label_eq_dec (fst r) labels then false else true) df.

(** [df.index[-1]]: nothing on a frame without rows, where the code
    raises. *)
Definition last_label {A : Type} (df : list (label * A)) : option label :=
  match rev df with
  | [] => None
  | r :: _ => Some (fst r)
  end.

(** The frame is returned without its index, which plays no part in what
    [read_data] does with it. *)
Definition read_csv_file (filepath : str) : option (list CsvRow) :=
  match pd_read_csv filepath with
  | Parsed rows =>
      let df := map (fun r => (fst r, (convert_year (fst (snd r)), snd (snd r))))
                    rows in
      let masked := map fst (filter (fun r => minus_one (fst (snd r))) df) in
      let df := drop_labels masked df in
      let df := map (fun r => (fst r, fst (snd r))) df in
      match last_label df with
      | None => None
      | Some l => Some (map snd (drop_labels [l] df))
      end
  | ParserError => None
  | OtherError => None
  end.

(** [df.insert(0, "PROVINCE_ID", province_ID)] and the two casts, on one
    row. *)
Definition finish_row (province_ID : Z) (r : CsvRow) : option Row :=
  match week_astype_int (csv_Week r), year_astype_int (csv_Year r) with
  | Some w, Some y =>
      Some (mkRow province_ID y w (csv_SMN r) (csv_SMT r) (csv_VCI r)
              (csv_TCI r) (csv_VHI r))
  | _, _ => None
  end.

(** The third field of the file name, when there are three. *)
Definition third_field (filename : str) : option str :=
  if (3 <=? length (split "_" filename))%nat
  then Some (nth 2 (split "_" filename) [])
  else None.

(** One turn of the loop of [read_data]: the frame appended to
    [data_frames], or nothing when the file is skipped. *)
Definition load_file (directory filename : str) : option (list Row) :=
  let filepath := path_join directory filename in
  match third_field filename with
  | None => None
  | Some province_ID =>
      if negb (isdigit province_ID) then None
      else
        let province_ID := int province_ID in
        if Z.eqb province_ID 12 || Z.eqb province_ID 20 then None
        else
          match read_csv_file filepath with
          | Some df => cast_rows (finish_row province_ID) df
          | None => None
          end
  end.

Definition read_data (directory : str) : option (list Row) :=
  if negb (path_exists directory) then None
  else
    let csv_files := filter (endswith (lit ".csv"%string)) (listdir directory) in
    match csv_files with
    | [] => None
    | _ :: _ =>
        let data_frames := filter_map (load_file directory) csv_files in
        match data_frames with
        | [] => None
        | _ :: _ => Some (drop_duplicates (concat data_frames))
        end
    end.

(** ** What [read_csv_file] returns *)

Lemma cell_eqb_false (c : cell) (v : R) : cell_eqb c v = false <-> c <> Some v.
Proof.
  destruct c as [x|]; cbn [cell_eqb].
  - rewrite negb_false_iff, Rneb_true_iff. split; intro H; congruence.
  - split; [discriminate | reflexivity].
Qed.

Lemma minus_one_false (r : CsvRow) :
  minus_one r = false <->
  csv_VHI r <> Some (-1) /\ csv_TCI r <> Some (-1) /\ csv_VCI r <> Some (-1).
Proof.
  unfold minus_one. rewrite !orb_false_iff, !cell_eqb_false. tauto.
Qed.

(** The labels of the rows the mask selects, and the rows left once every
    row under one of them is dropped. *)
Definition masked_labels (rows : list (label * (CsvRow * cell))) : list label :=
  map fst (filter (fun r => minus_one (fst (snd r))) rows).

Definition survivors (rows : list (label * (CsvRow * cell)))
  : list (label * (CsvRow * cell)) :=
  drop_labels (masked_labels rows) rows.

(** A parsed row as it stands in the result. *)
Definition cleaned (r : label * (CsvRow * cell)) : CsvRow :=
  convert_year (fst (snd r)).

Lemma drop_labels_map {A B : Type} (f : A -> B) (labels : list label)
    (df : list (label * A)) :
  drop_labels labels (map (fun r => (fst r, f (snd r))) df)
  = map (fun r => (fst r, f (snd r))) (drop_labels labels df).
Proof.
  unfold drop_labels. induction df as [| r df IH]; [reflexivity|].
  cbn [map filter fst]. destruct (in_dec label_eq_dec (fst r) labels);
    [exact IH|]. cbn [map]. f_equal. exact IH.
Qed.

Lemma last_label_map {A B : Type} (f : A -> B) (df : list (label * A)) :
  last_label (map (fun r => (fst r, f (snd r))) df) = last_label df.
Proof.
  unfold last_label. rewrite <- map_rev. destruct (rev df); reflexivity.
Qed.

Lemma last_label_none {A : Type} (df : list (label * A)) :
  last_label df = None <-> df = [].
Proof.
  unfold last_label. split.
  - intro H. destruct (rev df) eqn:E; [|discriminate].
    rewrite <- (rev_involutive df), E. reflexivity.
  - intros ->. reflexivity.
Qed.

Lemma last_label_some {A : Type} (df : list (label * A)) (l : label) :
  last_label df = Some l -> exists kept r, df = kept ++ [(l, r)].
Proof.
  unfold last_label. intro H. destruct (rev df) as [| [l' r] t] eqn:E;
    [discriminate|].
  injection H as <-. exists (rev t), r.
  rewrite <- (rev_involutive df), E. reflexivity.
Qed.

Lemma drop_labels_last {A : Type} (l : label) (r : A) (kept : list (label * A)) :
  drop_labels [l] (kept ++ [(l, r)]) = drop_labels [l] kept.
Proof.
  unfold drop_labels. rewrite filter_app. cbn [filter fst].
  destruct (in_dec label_eq_dec l [l]) as [_ | N];
    [apply app_nil_r | exfalso; apply N; left; reflexivity].
Qed.

Lemma read_csv_file_parsed (filepath : str)
    (rows : list (label * (CsvRow * cell))) :
  pd_read_csv filepath = Parsed rows ->
  read_csv_file filepath
  = match last_label (survivors rows) with
    | None => None
    | Some l => Some (map cleaned (drop_labels [l] (survivors rows)))
    end.
Proof.
  intro H. unfold read_csv_file. rewrite H. cbn zeta.
  set (conv := fun x : CsvRow * cell => (convert_year (fst x), snd x)).
  change (map (fun r : label * (CsvRow * cell) =>
                 (fst r, (convert_year (fst (snd r)), snd (snd r)))) rows)
    with (map (fun r : label * (CsvRow * cell) => (fst r, conv (snd r))) rows).
  assert (M : map fst (filter (fun r : label * (CsvRow * cell) =>
                                 minus_one (fst (snd r)))
                         (map (fun r : label * (CsvRow * cell) =>
                                 (fst r, conv (snd r))) rows))
              = masked_labels rows).
  { unfold masked_labels. clear H. induction rows as [| r rows IH]; [reflexivity|].
    cbn [map filter fst snd].
    change (minus_one (fst (conv (snd r)))) with (minus_one (fst (snd r))).
    destruct (minus_one (fst (snd r))); cbn [map fst]; [f_equal|]; exact IH. }
  rewrite M, (drop_labels_map conv (masked_labels rows) rows).
  change (drop_labels (masked_labels rows) rows) with (survivors rows).
  rewrite map_map.
  set (g := fun y : CsvRow * cell => convert_year (fst y)).
  change (map (fun x : label * (CsvRow * cell) =>
                 (fst (fst x, conv (snd x)), fst (snd (fst x, conv (snd x)))))
            (survivors rows))
    with (map (fun x : label * (CsvRow * cell) => (fst x, g (snd x)))
            (survivors rows)).
  rewrite (last_label_map g (survivors rows)).
  destruct (last_label (survivors rows)) as [l|]; [|reflexivity].
  rewrite (drop_labels_map g [l] (survivors rows)), map_map. reflexivity.
Qed.

Lemma survivors_unmasked (rows : list (label * (CsvRow * cell)))
    (r : label * (CsvRow * cell)) :
  In r (survivors rows) -> In r rows /\ minus_one (fst (snd r)) = false.
Proof.
  unfold survivors, drop_labels. intro H. apply filter_In in H.
  destruct H as (Hr & Hl). split; [exact Hr|].
  destruct (in_dec label_eq_dec (fst r) (masked_labels rows)) as [|N];
    [discriminate|].
  destruct (minus_one (fst (snd r))) eqn:E; [|reflexivity].
  exfalso. apply N. unfold masked_labels. apply in_map.
  apply filter_In. split; assumption.
Qed.

(** X16.  In the frame [read_csv_file] returns no row has -1 for VHI, TCI or
    VCI, and no year holds a tag any more. *)
Theorem read_csv_file_rows (filepath : str) (df : list CsvRow) :
  read_csv_file filepath = Some df ->
  forall r, In r df ->
    csv_VHI r <> Some (-1) /\ csv_TCI r <> Some (-1) /\ csv_VCI r <> Some (-1)
    /\ has_tag (csv_Year r) = false.
Proof.
  intros H r Hin.
  destruct (pd_read_csv filepath) as [rows | |] eqn:P;
    try (unfold read_csv_file in H; rewrite P in H; discriminate).
  rewrite (read_csv_file_parsed filepath rows P) in H.
  destruct (last_label (survivors rows)) as [l|]; [|discriminate].
  assert (E : df = map cleaned (drop_labels [l] (survivors rows))) by congruence.
  rewrite E in Hin. apply in_map_iff in Hin. destruct Hin as (r0 & <- & H0).
  unfold drop_labels in H0. apply filter_In in H0. destruct H0 as (H0 & _).
  apply survivors_unmasked in H0. destruct H0 as (_ & H0).
  change (minus_one (fst (snd r0))) with (minus_one (cleaned r0)) in H0.
  apply minus_one_false in H0. destruct H0 as (A & B & C).
  repeat split; try assumption. apply no_tag_after.
Qed.

Lemma NoDup_fst_inj {A : Type} (df : list (label * A)) (a b : label * A) :
  NoDup (map fst df) -> In a df -> In b df -> fst a = fst b -> a = b.
Proof.
  induction df as [| x df IH]; [intros _ []|].
  cbn [map]. intros N Ha Hb E. apply NoDup_cons_iff in N. destruct N as (Nx & N).
  destruct Ha as [<- | Ha], Hb as [<- | Hb].
  - reflexivity.
  - exfalso. apply Nx. rewrite E. apply in_map, Hb.
  - exfalso. apply Nx. rewrite <- E. apply in_map, Ha.
  - apply IH; assumption.
Qed.

Lemma NoDup_fst_filter {A : Type} (p : label * A -> bool) (df : list (label * A)) :
  NoDup (map fst df) -> NoDup (map fst (filter p df)).
Proof.
  induction df as [| x df IH]; [intros _; constructor|].
  cbn [map filter]. intro N. apply NoDup_cons_iff in N. destruct N as (Nx & N).
  destruct (p x); [|apply IH, N].
  cbn [map]. constructor; [|apply IH, N].
  intro H. apply Nx. apply in_map_iff in H. destruct H as (y & E & Hy).
  apply filter_In in Hy. rewrite <- E. apply in_map, Hy.
Qed.

(** X17.  [read_csv_file] drops rows by index label.  For a file that
    parses, it gives nothing exactly when no row is left once every row
    under the label of a row with -1 is dropped (the lookup of the last
    label then raises); otherwise it gives the rows left without every row
    under the label of the last of them, which is fewer than were left.
    When the labels are all different, as the row numbers are, the rows
    left are the rows without -1 and the result is these without the last
    one. *)
Theorem read_csv_file_drops_last (filepath : str)
    (rows : list (label * (CsvRow * cell))) :
  pd_read_csv filepath = Parsed rows ->
  (read_csv_file filepath = None <-> survivors rows = [])
  /\ (forall df, read_csv_file filepath = Some df ->
      exists kept l r,
        survivors rows = kept ++ [(l, r)]
        /\ df = map cleaned (drop_labels [l] kept)
        /\ (length df < length (survivors rows))%nat)
  /\ (NoDup (map fst rows) ->
      survivors rows = filter (fun r => negb (minus_one (fst (snd r)))) rows
      /\ forall df, read_csv_file filepath = Some df ->
           df = map cleaned (removelast (survivors rows))
           /\ S (length df) = length (survivors rows)).
Proof.
  intro P. rewrite (read_csv_file_parsed filepath rows P).
  assert (Hsome : forall df,
             match last_label (survivors rows) with
             | None => None
             | Some l => Some (map cleaned (drop_labels [l] (survivors rows)))
             end = Some df ->
             exists kept l r,
               survivors rows = kept ++ [(l, r)]
               /\ df = map cleaned (drop_labels [l] kept)).
  { intros df H. destruct (last_label (survivors rows)) as [l|] eqn:L;
      [|discriminate].
    destruct (last_label_some _ l L) as (kept & r & E).
    exists kept, l, r. split; [exact E|].
    rewrite E, drop_labels_last in H. congruence. }
  split; [|split].
  - rewrite <- last_label_none.
    destruct (last_label (survivors rows)); split; congruence.
  - intros df H. destruct (Hsome df H) as (kept & l & r & E & D).
    exists kept, l, r. split; [exact E|]. split; [exact D|].
    rewrite D, E, length_map, length_app. cbn [length].
    pose proof (filter_length_le
                  (fun x : label * (CsvRow * cell) =>
                     if in_dec label_eq_dec (fst x) [l] then false else true) kept)
      as Le.
    unfold drop_labels. lia.
  - intro N. split.
    + unfold survivors, drop_labels. apply filter_ext_in. intros r Hr.
      destruct (in_dec label_eq_dec (fst r) (masked_labels rows)) as [I | I].
      * unfold masked_labels in I. apply in_map_iff in I.
        destruct I as (r' & E & Hr'). apply filter_In in Hr'.
        destruct Hr' as (Hin' & M).
        rewrite (NoDup_fst_inj rows r' r N Hin' Hr E) in M. rewrite M. reflexivity.
      * destruct (minus_one (fst (snd r))) eqn:M; [|reflexivity].
        exfalso. apply I. unfold masked_labels. apply in_map.
        apply filter_In. split; assumption.
    + intros df H. destruct (Hsome df H) as (kept & l & r & E & D).
      assert (Ns : NoDup (map fst (survivors rows)))
        by (apply NoDup_fst_filter, N).
      rewrite E, map_app in Ns. cbn [map fst] in Ns.
      apply NoDup_remove_2 in Ns. rewrite app_nil_r in Ns.
      assert (K : drop_labels [l] kept = kept).
      { unfold drop_labels. apply forallb_filter_id. apply forallb_forall.
        intros x Hx. destruct (in_dec label_eq_dec (fst x) [l]) as [[I | []] |];
          [|reflexivity].
        exfalso. apply Ns. rewrite I. apply in_map, Hx. }
      rewrite K in D. rewrite E, removelast_last, length_app. cbn [length].
      split; [exact D|]. rewrite D, length_map. lia.
Qed.

(** ** Which files [read_data] takes *)

(** X18.  A file name ending in .csv with fewer than three underscores is
    skipped: with two, the third field carries the extension and is no
    number. *)
Theorem load_file_needs_four_fields (directory filename : str) :
  endswith (lit ".csv"%string) filename = true ->
  (count_occ ascii_dec filename "_"%char <= 2)%nat ->
  load_file directory filename = None.
Proof.
  intros He Hc. unfold load_file, third_field.
  pose proof (length_split "_" filename) as L.
  destruct (3 <=? length (split "_" filename))%nat eqn:E3; [|reflexivity].
  apply Nat.leb_le in E3.
  assert (L3 : length (split "_" filename) = 3%nat) by lia.
  destruct (endswith_last "v" (lit ".cs"%string) filename "0"%char He) as (Hne & Hlast).
  assert (Hsep : last filename "0"%char <> "_"%char) by (rewrite Hlast; discriminate).
  destruct (last_field_last "_" filename "0"%char Hne Hsep) as (_ & Hl).
  destruct (split "_" filename) as [| a [| b [| c [| x xs]]]]; try discriminate.
  cbn [nth]. cbn [last] in Hl.
  destruct (isdigit c) eqn:D; [|reflexivity].
  apply (isdigit_last c "0"%char) in D. rewrite Hl, Hlast in D. discriminate.
Qed.

Lemma load_file_province_aux (directory filename : str) (df : list Row) :
  load_file directory filename = Some df ->
  exists field,
    third_field filename = Some field
    /\ isdigit field = true
    /\ int field <> 12%Z /\ int field <> 20%Z
    /\ forall r, In r df -> PROVINCE_ID r = int field.
Proof.
  unfold load_file. intro H.
  destruct (third_field filename) as [field|]; [|discriminate].
  destruct (isdigit field) eqn:D; [|discriminate]. cbn [negb] in H.
  destruct (Z.eqb (int field) 12 || Z.eqb (int field) 20) eqn:X; [discriminate|].
  apply orb_false_iff in X. destruct X as (X1 & X2).
  apply Z.eqb_neq in X1. apply Z.eqb_neq in X2.
  destruct (read_csv_file (path_join directory filename)) as [csv|]; [|discriminate].
  exists field. repeat split; try assumption.
  intros r Hr. destruct (cast_rows_In _ _ _ H r Hr) as (r0 & _ & E).
  unfold finish_row in E.
  destruct (week_astype_int (csv_Week r0)); [|discriminate].
  destruct (year_astype_int (csv_Year r0)); [|discriminate].
  injection E as <-. reflexivity.
Qed.

(** X19.  A file contributes only if the third underscore-separated field of its
    name is a number other than 12 and 20, and every row it contributes
    carries that number as PROVINCE_ID. *)
Theorem load_file_province (directory filename : str) (df : list Row) :
  load_file directory filename = Some df ->
  exists field,
    third_field filename = Some field
    /\ isdigit field = true
    /\ int field <> 12%Z /\ int field <> 20%Z
    /\ forall r, In r df -> PROVINCE_ID r = int field.
Proof.
  unfold load_file. intro H.
  destruct (third_field filename) as [field|]; [|discriminate].
  exists field. split; [reflexivity|].
  destruct (isdigit field); [|discriminate]. split; [reflexivity|].
  cbn [negb] in H.
  destruct (Z.eqb_spec (int field) 12) as [|N12]; [discriminate|].
  destruct (Z.eqb_spec (int field) 20) as [|N20]; [discriminate|].
  cbn [orb] in H. split; [exact N12|]. split; [exact N20|].
  destruct (read_csv_file (path_join directory filename)) as [csv|]; [|discriminate].
  intros r Hr. destruct (cast_rows_In _ _ _ H r Hr) as (r0 & _ & E).
  unfold finish_row in E.
  destruct (week_astype_int (csv_Week r0)), (year_astype_int (csv_Year r0));
    try discriminate.
  injection E as <-. reflexivity.
Qed.

(** ** What [read_data] returns *)

(** X20.  The frame [read_data] returns has no two equal rows, and each row comes
    from a .csv file of the directory whose name gives its PROVINCE_ID,
    which is neither 12 nor 20. *)
Theorem read_data_rows (directory : str) (df : list Row) :
  read_data directory = Some df ->
  NoDup df
  /\ forall r, In r df ->
       PROVINCE_ID r <> 12%Z /\ PROVINCE_ID r <> 20%Z
       /\ exists filename field,
            In filename (listdir directory)
            /\ endswith (lit ".csv"%string) filename = true
            /\ third_field filename = Some field
            /\ isdigit field = true
            /\ PROVINCE_ID r = int field.
Proof.
  unfold read_data. intro H.
  destruct (path_exists directory); [|discriminate]. cbn [negb] in H.
  set (csv_files := filter (endswith (lit ".csv"%string)) (listdir directory)) in *.
  destruct csv_files as [| f fs] eqn:Ef; [discriminate|]. rewrite <- Ef in H.
  destruct (filter_map (load_file directory) csv_files) as [| d ds] eqn:Ed;
    [discriminate|].
  assert (E : df = drop_duplicates (concat (d :: ds))) by congruence.
  clear H. rewrite <- Ed in E. subst df. unfold drop_duplicates.
  destruct (drop_duplicates_from_spec []
              (concat (filter_map (load_file directory) csv_files))) as (N & I).
  split; [exact N|]. intros r Hr.
  apply I in Hr. destruct Hr as (Hr & _).
  apply in_concat in Hr. destruct Hr as (frame & Hf & Hr).
  apply filter_map_In in Hf. destruct Hf as (filename & Hfile & Hload).
  destruct (load_file_province_aux directory filename frame Hload)
    as (field & T & D & X1 & X2 & P).
  rewrite (P r Hr). split; [exact X1|]. split; [exact X2|].
  exists filename, field. unfold csv_files in Hfile.
  apply filter_In in Hfile. destruct Hfile as (Hl & He).
  repeat split; assumption.
Qed.


End Reading.

(** ** Instances *)

Lemma remove_html_tags_without_tag_witness :
  has_tag (lit "1982 < 1983"%string) = false
  /\ remove_html_tags (lit "1982 < 1983"%string) = lit "1982 < 1983"%string.
Proof.
  split; [reflexivity|].
  exact (remove_html_tags_without_tag (lit "1982 < 1983"%string) eq_refl).
Defined.

Lemma not_in_text (c : ascii) (s : str) :
  forallb (fun x => negb (Ascii.eqb x c)) s = true -> ~ In c s.
Proof.
  intros H Hin. rewrite forallb_forall in H. specialize (H c Hin).
  rewrite Ascii.eqb_refl in H. discriminate.
Qed.

Lemma remove_html_tags_one_tag_witness :
  remove_html_tags (lit "year "%string ++ "<"%char :: lit "b class=x"%string
                      ++ ">"%char :: lit "1982</b>"%string)
  = lit "year "%string ++ remove_html_tags (lit "1982</b>"%string).
Proof.
  apply (remove_html_tags_one_tag (lit "year "%string) (lit "b class=x"%string)
           (lit "1982</b>"%string));
    apply not_in_text; reflexivity.
Defined.

(** A file of one data row and the closing line of the page. *)
Definition sample_good : CsvRow :=
  mkCsvRow (lit "<tt><pre>1982"%string) (Some 1) (Some 2) (Some 3)
    (Some 50) (Some 40) (Some 45).

Definition sample_trailer : CsvRow :=
  mkCsvRow (lit "</pre></tt>"%string) None None None None None None.

Definition sample_rows : list (Z * (CsvRow * cell)) :=
  [(0%Z, (sample_good, None)); (1%Z, (sample_trailer, None))].

Definition sample_read_csv (filepath : str) : read_csv_result Z :=
  Parsed sample_rows.

Definition sample_exists (directory : str) : bool := true.

Definition sample_listdir (directory : str) : list str :=
  [lit "vhi_id_16_2025.csv"%string; lit "vhi_id_12_2025.csv"%string;
   lit "notes.txt"%string].

Definition sample_join (directory filename : str) : str :=
  directory ++ "/"%char :: filename.

Definition sample_year (s : str) : option Z :=
  if isdigit s then Some (int s) else None.

Definition sample_week (c : cell) : option Z :=
  match c with
  | Some _ => Some 1%Z
  | None => None
  end.

Definition sample_row : Row :=
  mkRow 16 1982 1 (Some 2) (Some 3) (Some 50) (Some 40) (Some 45).

Lemma sample_good_kept : minus_one sample_good = false.
Proof.
  apply minus_one_false. cbn.
  repeat split; intro H; injection H as H; lra.
Qed.

Lemma sample_survivors : survivors Z Z.eq_dec sample_rows = sample_rows.
Proof.
  unfold survivors, masked_labels, sample_rows. cbn [filter fst snd].
  rewrite sample_good_kept. reflexivity.
Qed.

Lemma sample_read_csv_file (filepath : str) :
  read_csv_file Z Z.eq_dec sample_read_csv filepath
  = Some [convert_year sample_good].
Proof.
  rewrite (read_csv_file_parsed Z Z.eq_dec sample_read_csv filepath sample_rows
             eq_refl).
  rewrite sample_survivors. reflexivity.
Qed.

(** Three rows without -1 under one label: dropping the last label drops
    them all, and the frame comes back without rows. *)
Definition sample_one_label (filepath : str) : read_csv_result Z :=
  Parsed [(7%Z, (sample_trailer, None)); (7%Z, (sample_trailer, None));
          (7%Z, (sample_trailer, None))].

Example read_csv_file_one_label :
  read_csv_file Z Z.eq_dec sample_one_label [] = Some [].
Proof. reflexivity. Qed.

Lemma read_csv_file_rows_witness :
  read_csv_file Z Z.eq_dec sample_read_csv [] = Some [convert_year sample_good]
  /\ csv_VHI (convert_year sample_good) <> Some (-1)
  /\ has_tag (csv_Year (convert_year sample_good)) = false.
Proof.
  split; [exact (sample_read_csv_file [])|].
  destruct (read_csv_file_rows Z Z.eq_dec sample_read_csv []
              [convert_year sample_good]
              (sample_read_csv_file []) (convert_year sample_good)
              (or_introl eq_refl)) as (H1 & _ & _ & H4).
  split; assumption.
Defined.

Lemma sample_labels_differ : NoDup (map fst sample_rows).
Proof.
  cbn. constructor; [intros [H | []]; discriminate|].
  constructor; [intros []|constructor].
Qed.

Lemma read_csv_file_drops_last_witness :
  sample_read_csv [] = Parsed sample_rows
  /\ (read_csv_file Z Z.eq_dec sample_read_csv [] = None <->
      survivors Z Z.eq_dec sample_rows = [])
  /\ forall df, read_csv_file Z Z.eq_dec sample_read_csv [] = Some df ->
       df = map (cleaned Z) (removelast (survivors Z Z.eq_dec sample_rows))
       /\ S (length df) = length (survivors Z Z.eq_dec sample_rows).
Proof.
  split; [reflexivity|].
  destruct (read_csv_file_drops_last Z Z.eq_dec sample_read_csv [] sample_rows
              eq_refl) as (H1 & _ & H3).
  split; [exact H1|]. exact (proj2 (H3 sample_labels_differ)).
Defined.

Lemma load_file_needs_four_fields_witness :
  endswith (lit ".csv"%string) (lit "vhi_id_16.csv"%string) = true
  /\ load_file Z Z.eq_dec sample_read_csv sample_join sample_year sample_week
       (lit "data_csv"%string) (lit "vhi_id_16.csv"%string) = None.
Proof.
  split; [reflexivity|].
  apply (load_file_needs_four_fields Z Z.eq_dec sample_read_csv sample_join sample_year
           sample_week (lit "data_csv"%string) (lit "vhi_id_16.csv"%string));
    [reflexivity | cbn; lia].
Defined.

Lemma sample_load_file (directory : str) :
  load_file Z Z.eq_dec sample_read_csv sample_join sample_year sample_week directory
    (lit "vhi_id_16_2025.csv"%string) = Some [sample_row].
Proof.
  unfold load_file. cbn [third_field]. 
  change (third_field (lit "vhi_id_16_2025.csv"%string))
    with (Some (lit "16"%string)).
  cbn [isdigit negb]. change (isdigit (lit "16"%string)) with true. cbn [negb].
  change (int (lit "16"%string)) with 16%Z. cbn [Z.eqb orb].
  rewrite sample_read_csv_file. reflexivity.
Qed.

Lemma load_file_province_witness :
  load_file Z Z.eq_dec sample_read_csv sample_join sample_year sample_week
    (lit "data_csv"%string) (lit "vhi_id_16_2025.csv"%string) = Some [sample_row]
  /\ exists field,
       third_field (lit "vhi_id_16_2025.csv"%string) = Some field
       /\ int field <> 12%Z /\ int field <> 20%Z
       /\ PROVINCE_ID sample_row = int field.
Proof.
  split; [exact (sample_load_file (lit "data_csv"%string))|].
  destruct (load_file_province Z Z.eq_dec sample_read_csv sample_join sample_year
              sample_week (lit "data_csv"%string)
              (lit "vhi_id_16_2025.csv"%string) [sample_row]
              (sample_load_file (lit "data_csv"%string)))
    as (field & T & _ & X1 & X2 & P).
  exists field. split; [exact T|]. split; [exact X1|]. split; [exact X2|].
  apply P. left. reflexivity.
Defined.

Lemma sample_read_data (directory : str) :
  read_data Z Z.eq_dec sample_read_csv sample_exists sample_listdir sample_join
    sample_year sample_week directory = Some [sample_row].
Proof.
  unfold read_data. cbn [sample_exists negb].
  change (filter (endswith (lit ".csv"%string)) (sample_listdir directory))
    with [lit "vhi_id_16_2025.csv"%string; lit "vhi_id_12_2025.csv"%string].
  cbn [filter_map]. rewrite sample_load_file.
  change (load_file Z Z.eq_dec sample_read_csv sample_join sample_year sample_week directory
            (lit "vhi_id_12_2025.csv"%string)) with (@None (list Row)).
  reflexivity.
Qed.

Lemma read_data_rows_witness :
  read_data Z Z.eq_dec sample_read_csv sample_exists sample_listdir sample_join
    sample_year sample_week (lit "data_csv"%string) = Some [sample_row]
  /\ NoDup [sample_row]
  /\ PROVINCE_ID sample_row <> 12%Z /\ PROVINCE_ID sample_row <> 20%Z.
Proof.
  split; [exact (sample_read_data (lit "data_csv"%string))|].
  destruct (read_data_rows Z Z.eq_dec sample_read_csv sample_exists sample_listdir
              sample_join sample_year sample_week (lit "data_csv"%string)
              [sample_row] (sample_read_data (lit "data_csv"%string)))
    as (N & H).
  split; [exact N|].
  destruct (H sample_row (or_introl eq_refl)) as (X1 & X2 & _).
  split; assumption.
Defined.

End data_cleaning.

(** * lab_3/lab_3.py

    [filter_data] over the loaded frame.  [int], [str.strip] and the frame
    [data_frames_work] (what [replace_function] makes of the rows read) are
    parameters. *)

Module lab_3.

Import data_cleaning.

Definition PROVINCE_NAME_dict : list (Z * str) :=
  [ (1, lit "Вінницька"%string); (2, lit "Волинська"%string);
    (3, lit "Дніпропетровська"%string); (4, lit "Донецька"%string);
    (5, lit "Житомирська"%string); (6, lit "Закарпатська"%string);
    (7, lit "Запорізька"%string); (8, lit "Івано-Франківська"%string);
    (9, lit "Київська"%string); (10, lit "Кіровоградська"%string);
    (11, lit "Луганська"%string); (12, lit "Львівська"%string);
    (13, lit "Миколаївська"%string); (14, lit "Одеська"%string);
    (15, lit "Полтавська"%string); (16, lit "Рівенська"%string);
    (17, lit "Сумська"%string); (18, lit "Тернопільська"%string);
    (19, lit "Харківська"%string); (20, lit "Херсонська"%string);
    (21, lit "Хмельницька"%string); (22, lit "Черкаська"%string);
    (23, lit "Чернівецька"%string); (24, lit "Чернігівська"%string);
    (25, lit "Республіка Крим"%string) ]%Z.

(** [d.get(key, default)]. *)
Fixpoint get (d : list (Z * str)) (key : Z) (default : str) : str :=
  match d with
  | [] => default
  | (k, v) :: rest => if Z.eqb k key then v else get rest key default
  end.

(** The options of the data-type select box. *)
Inductive index_name : Type :=
| VCI_index
| TCI_index
| VHI_index.

(** [df[index]] at one row. *)
Definition column (index : index_name) (r : Row) : cell :=
  match index with
  | VCI_index => VCI r
  | TCI_index => TCI r
  | VHI_index => VHI r
  end.

(** A row of the frame [filter_data] returns: PROVINCE_NAME, PROVINCE_ID,
    Year, Week and the chosen index. *)
Record Filtered : Type := mkFiltered {
  PROVINCE_NAME : str;
  filtered_PROVINCE_ID : Z;
  filtered_Year : Z;
  filtered_Week : Z;
  filtered_value : cell
}.

(** The three messages [filter_data] hands to [st.error] before returning
    [None]. *)
Inductive error : Type :=
| WeekRangeError
| YearRangeError
| FormatError.

(** [s.between(lo, hi)] at one cell. *)
Definition between (x lo hi : Z) : bool := (lo <=? x)%Z && (x <=? hi)%Z.

Section FilterData.

Variable data_frames_work : list Row.
(** [int(s)]: the integer, or nothing when it raises. *)
Variable py_int : str -> option Z.
Variable strip : str -> str.

(** [a, b = map(int, text.strip().split('-'))]: nothing when the
    unpacking or a conversion raises. *)
Definition parse_range (text : str) : option (Z * Z) :=
  match split "-" (strip text) with
  | [a; b] =>
      match py_int a, py_int b with
      | Some x, Some y => Some (x, y)
      | _, _ => None
      end
  | _ => None
  end.

Definition filter_data (index : index_name) (region : Z)
    (range_weeks range_year : str) : error + list Filtered :=
  match parse_range range_weeks, parse_range range_year with
  | Some (week_1, week_2), Some (year_1, year_2) =>
      if negb ((1 <=? week_1)%Z && (week_1 <=? week_2)%Z && (week_2 <=? 52)%Z)
      then inl WeekRangeError
      else if negb ((1982 <=? year_1)%Z && (year_1 <=? year_2)%Z
                    && (year_2 <=? 2024)%Z)
      then inl YearRangeError
      else
        let province_name := get PROVINCE_NAME_dict region [] in
        let data_frame :=
          filter (fun r => Z.eqb (PROVINCE_ID r) region
                           && between (Week r) week_1 week_2
                           && between (Year r) year_1 year_2)
                 data_frames_work in
        inr (map (fun r => mkFiltered province_name (PROVINCE_ID r) (Year r)
                             (Week r) (column index r))
                 data_frame)
  | _, _ => inl FormatError
  end.

(** The row [filter_data] makes of a row of the frame. *)
Definition shown (index : index_name) (region : Z) (r : Row) : Filtered :=
  mkFiltered (get PROVINCE_NAME_dict region []) (PROVINCE_ID r) (Year r) (Week r)
    (column index r).

(** X22.  When [filter_data] returns a frame, both texts gave two integers, the
    weeks lie in 1..52 and the years in 1982..2024, in order, and the frame
    holds exactly the rows of the region whose week and year lie in the
    ranges, ends included, each with the name the dictionary has for the
    region. *)
Theorem filter_data_rows (index : index_name) (region : Z)
    (range_weeks range_year : str) (table : list Filtered) :
  filter_data index region range_weeks range_year = inr table ->
  exists week_1 week_2 year_1 year_2,
    parse_range range_weeks = Some (week_1, week_2)
    /\ parse_range range_year = Some (year_1, year_2)
    /\ (1 <= week_1 <= week_2)%Z /\ (week_2 <= 52)%Z
    /\ (1982 <= year_1 <= year_2)%Z /\ (year_2 <= 2024)%Z
    /\ forall row,
         In row table <->
         exists r, In r data_frames_work
                   /\ PROVINCE_ID r = region
                   /\ (week_1 <= Week r <= week_2)%Z
                   /\ (year_1 <= Year r <= year_2)%Z
                   /\ row = shown index region r.
Proof.
  unfold filter_data. intro H.
  destruct (parse_range range_weeks) as [[week_1 week_2]|]; [|discriminate].
  destruct (parse_range range_year) as [[year_1 year_2]|]; [|discriminate].
  destruct ((1 <=? week_1)%Z && (week_1 <=? week_2)%Z && (week_2 <=? 52)%Z) eqn:W;
    [|discriminate].
  destruct ((1982 <=? year_1)%Z && (year_1 <=? year_2)%Z && (year_2 <=? 2024)%Z)
    eqn:Y; [|discriminate].
  cbn [negb] in H.
  assert (E : table = map (shown index region)
                (filter (fun r => Z.eqb (PROVINCE_ID r) region
                                  && between (Week r) week_1 week_2
                                  && between (Year r) year_1 year_2)
                        data_frames_work))
    by (injection H as H; rewrite <- H; reflexivity).
  clear H.
  apply andb_true_iff in W. destruct W as (W & W3).
  apply andb_true_iff in W. destruct W as (W1 & W2).
  apply andb_true_iff in Y. destruct Y as (Y & Y3).
  apply andb_true_iff in Y. destruct Y as (Y1 & Y2).
  apply Z.leb_le in W1, W2, W3, Y1, Y2, Y3.
  exists week_1, week_2, year_1, year_2.
  repeat split; try assumption.
  - intro Hin. rewrite E in Hin. apply in_map_iff in Hin.
    destruct Hin as (r & <- & Hr). apply filter_In in Hr.
    destruct Hr as (Hr & C). unfold between in C.
    rewrite !andb_true_iff, Z.eqb_eq, !Z.leb_le in C.
    exists r. repeat split; tauto.
  - intros (r & Hr & P & Wk & Yr & ->). rewrite E. apply in_map.
    apply filter_In. split; [exact Hr|]. unfold between.
    rewrite !andb_true_iff, Z.eqb_eq, !Z.leb_le. tauto.
Qed.

(** X23.  A range text that, once stripped, does not hold exactly one hyphen is
    answered with the format error, whatever else was entered: so is any
    text with a negative number in it. *)
Theorem filter_data_one_hyphen (index : index_name) (region : Z)
    (range_weeks range_year : str) :
  count_occ ascii_dec (strip range_weeks) "-"%char <> 1%nat
  \/ count_occ ascii_dec (strip range_year) "-"%char <> 1%nat ->
  filter_data index region range_weeks range_year = inl FormatError.
Proof.
  assert (P : forall text,
             count_occ ascii_dec (strip text) "-"%char <> 1%nat ->
             parse_range text = None).
  { intros text H. unfold parse_range.
    pose proof (length_split "-" (strip text)) as L.
    destruct (split "-" (strip text)) as [| a [| b [| c l]]]; try reflexivity.
    cbn [length] in L. exfalso. apply H. lia. }
  unfold filter_data. intros [H | H].
  - rewrite (P range_weeks H). reflexivity.
  - rewrite (P range_year H).
    destruct (parse_range range_weeks) as [[? ?]|]; reflexivity.
Qed.

End FilterData.

(** ** Instances *)

Definition sample_frame : list Row :=
  [ mkRow 16 1982 1 (Some 2) (Some 3) (Some 50) (Some 40) (Some 45);
    mkRow 16 1982 2 (Some 2) (Some 3) (Some 51) (Some 41) (Some 46);
    mkRow 17 1982 1 (Some 2) (Some 3) (Some 52) (Some 42) (Some 47);
    mkRow 16 2025 1 (Some 2) (Some 3) (Some 53) (Some 43) (Some 48) ].

Definition is_space (c : ascii) : bool := Ascii.eqb c " ".

(** Digits with blanks around them. *)
Definition sample_int (s : str) : option Z :=
  let digits := filter (fun c => negb (is_space c)) s in
  if isdigit digits then Some (int digits) else None.

Definition sample_strip (s : str) : str := s.

Lemma filter_data_rows_witness :
  exists table,
    filter_data sample_frame sample_int sample_strip VHI_index 16
      (lit "1 - 1"%string) (lit "1982 - 2024"%string) = inr table
    /\ forall row,
         In row table <->
         exists r, In r sample_frame
                   /\ PROVINCE_ID r = 16%Z
                   /\ (1 <= Week r <= 1)%Z
                   /\ (1982 <= Year r <= 2024)%Z
                   /\ row = shown VHI_index 16 r.
Proof.
  eexists. split; [reflexivity|].
  destruct (filter_data_rows sample_frame sample_int sample_strip VHI_index 16
              (lit "1 - 1"%string) (lit "1982 - 2024"%string) _ eq_refl)
    as (w1 & w2 & y1 & y2 & Pw & Py & _ & _ & _ & _ & H).
  injection Pw as <- <-. injection Py as <- <-. exact H.
Defined.

Lemma filter_data_one_hyphen_witness :
  count_occ ascii_dec (sample_strip (lit "-1 - 52"%string)) "-"%char <> 1%nat
  /\ filter_data sample_frame sample_int sample_strip VHI_index 16
       (lit "-1 - 52"%string) (lit "1982 - 2024"%string) = inl FormatError.
Proof.
  assert (H : count_occ ascii_dec (sample_strip (lit "-1 - 52"%string)) "-"%char
              <> 1%nat) by (cbn; lia).
  split; [exact H|].
  exact (filter_data_one_hyphen sample_frame sample_int sample_strip VHI_index 16
           (lit "-1 - 52"%string) (lit "1982 - 2024"%string) (or_introl H)).
Defined.

End lab_3.
